(** * DbmsRest: the typed value/schema engine (models.py) and the cell
    update of the request layer (main.py), as a shallow embedding.

    Python objects become records, [dict]s become insertion-ordered
    association lists, methods that mutate [self] return the new [self]
    next to their result, and [raise] becomes the [Raise] branch of
    [Result]. *)

From Stdlib Require Import ZArith Lia.
From stdpp Require Import base tactics option list strings.

Local Open Scope Z_scope.

(** ** Python's insertion-ordered [dict] *)

Module PyDict.
Section dict.
Context {K V : Type} `{EqDecision K}.

(** [d[k]], [None] standing for [KeyError]. *)
Fixpoint get (d : list (K * V)) (k : K) : option V :=
  match d with
  | [] => None
  | (k', v) :: d' => if decide (k = k') then Some v else get d' k
  end.

(** [k in d] *)
Definition contains (d : list (K * V)) (k : K) : bool :=
  match get d k with Some _ => true | None => false end.

(** [d[k] = v]: an existing key keeps its position, a new one goes last. *)
Fixpoint set (d : list (K * V)) (k : K) (v : V) : list (K * V) :=
  match d with
  | [] => [(k, v)]
  | (k', v') :: d' =>
      if decide (k = k') then (k', v) :: d' else (k', v') :: set d' k v
  end.

(** [del d[k]] for a key that is present. *)
Fixpoint del (d : list (K * V)) (k : K) : list (K * V) :=
  match d with
  | [] => []
  | (k', v') :: d' => if decide (k = k') then d' else (k', v') :: del d' k
  end.

Definition keys (d : list (K * V)) : list K := d.*1.
Definition values (d : list (K * V)) : list V := d.*2.

(** A [dict] holds each key once. *)
Definition wf (d : list (K * V)) : Prop := NoDup (keys d).
End dict.
End PyDict.

(** ** Values *)

Module Color.
Record t := mk { r : Z; g : Z; b : Z }.
End Color.

(** A finite [decimal.Decimal]: [coefficient * 10 ^ exponent].  Pydantic
    refuses NaN and the infinities for a [Decimal] field. *)
Module Decimal.
Record t := mk { coefficient : Z; exponent : Z }.

Definition of_int (n : Z) : t := mk n 0.

(** [a == b]: exact numeric comparison, whatever the exponents. *)
Definition eq (a b : t) : bool :=
  let e := Z.min (exponent a) (exponent b) in
  coefficient a * 10 ^ (exponent a - e) =? coefficient b * 10 ^ (exponent b - e).
End Decimal.

(** [Value = Union[int, Decimal, str, Color]] *)
Inductive Value :=
| VInt (n : Z)
| VDecimal (d : Decimal.t)
| VStr (s : string)
| VColor (c : Color.t).

(** [Color.__eq__] (pydantic): field by field. *)
Definition Color_eq (x y : Color.t) : bool :=
  (Color.r x =? Color.r y) && (Color.g x =? Color.g y) && (Color.b x =? Color.b y).

(** [x == y] on values: [int] and [Decimal] compare numerically with each
    other, [str] with [str], [Color] with [Color]; anything else is unequal. *)
Definition Value_eq (x y : Value) : bool :=
  match x, y with
  | VInt m, VInt n => m =? n
  | VInt m, VDecimal d => Decimal.eq (Decimal.of_int m) d
  | VDecimal d, VInt n => Decimal.eq d (Decimal.of_int n)
  | VDecimal d, VDecimal d' => Decimal.eq d d'
  | VStr s, VStr s' => bool_decide (s = s')
  | VColor c, VColor c' => Color_eq c c'
  | _, _ => false
  end.

(** A [str] is held as the bytes of its UTF-8 encoding.  [len(s)] counts
    characters: the bytes that do not continue a character (a continuation
    byte is 10xxxxxx, 128..191). *)
Definition continuation_byte (a : Ascii.ascii) : bool :=
  (128 <=? Ascii.nat_of_ascii a)%nat && (Ascii.nat_of_ascii a <? 192)%nat.

Fixpoint len (s : string) : nat :=
  match s with
  | EmptyString => 0%nat
  | String a rest =>
      ((if continuation_byte a then 0 else 1) + len rest)%nat
  end.

(** [xs == ys] on lists: same length and equal element by element. *)
Fixpoint list_eq (xs ys : list Value) : bool :=
  match xs, ys with
  | [], [] => true
  | x :: xs', y :: ys' => Value_eq x y && list_eq xs' ys'
  | _, _ => false
  end.

(** ** Types and columns *)

Module Type_.
Inductive t := Integer | Real | Char | String | Color | ColorInvl.

Definition eqb (a b : t) : bool :=
  match a, b with
  | Integer, Integer | Real, Real | Char, Char
  | String, String | Color, Color | ColorInvl, ColorInvl => true
  | _, _ => false
  end.
End Type_.

Module Column.
Record t := mk {
  name : string;
  type : Type_.t;
  r_min : option Z; r_max : option Z;
  g_min : option Z; g_max : option Z;
  b_min : option Z; b_max : option Z
}.
End Column.

Module Row.
Record t := mk { id : nat; cells : list Value }.
End Row.

(** ** Exceptions *)

(** The channel letter of [for field in 'rgb']. *)
Inductive Field := field_r | field_g | field_b.

(** What a [ValueError] of models.py says. *)
Inductive Message :=
| MissingRange
| RangeOutOfOrder (field : Field)
| UnexpectedRange (ty : Type_.t)
| ConstraintViolation
| TypeMismatch (expected : Column.t) (found : Value)
| RowLengthMismatch
| IncompatibleColumnCount
| IncompatibleColumnTypes.

(** The [detail] of an [HTTPException] of main.py. *)
Inductive Detail :=
| DatabaseNotFound (database_name : string)
| TableNotFound (database_name : string) (table_id : nat)
| RowNotFound (database_name : string) (table_id row_id : nat)
| ColumnNotFound (database_name : string) (table_id column_id : nat)
| ErrorText (err : Message).

Inductive Exception :=
| ValueError (msg : Message)
| TypeError
| IndexError
| HTTPException (status_code : nat) (detail : Detail).

Inductive Result (A : Type) :=
| Ok (a : A)
| Raise (e : Exception).
Arguments Ok {A} a.
Arguments Raise {A} e.

#[global] Instance Result_ret : MRet Result := fun A a => Ok a.

#[global] Instance Result_bind : MBind Result := fun A B f m =>
  match m with
  | Ok a => f a
  | Raise e => Raise e
  end.

(** [a and b] on fallible operands: [b] is not evaluated when [a] is false. *)
Definition and_then (a b : Result bool) : Result bool :=
  a ≫= λ x : bool, if x then b else Ok false.

(** ** Column (models.py) *)

(** [a is b] on optional channel bounds: [None] is a singleton, and CPython
    keeps one object per integer of the 0..255 range of [conint]. *)
Definition py_is (a b : option Z) : bool :=
  match a, b with
  | None, None => true
  | Some x, Some y => x =? y
  | _, _ => false
  end.

(** [a > b] and [a <= b]: comparing [None] with a number is a [TypeError]. *)
Definition py_gt (a b : option Z) : Result bool :=
  match a, b with
  | Some x, Some y => Ok (x >? y)
  | _, _ => Raise TypeError
  end.

Definition py_le (a b : option Z) : Result bool :=
  match a, b with
  | Some x, Some y => Ok (x <=? y)
  | _, _ => Raise TypeError
  end.

(** [getattr(self, f'{field}_min')] and [getattr(self, f'{field}_max')] *)
Definition getattr_min (self : Column.t) (field : Field) : option Z :=
  match field with
  | field_r => Column.r_min self
  | field_g => Column.g_min self
  | field_b => Column.b_min self
  end.

Definition getattr_max (self : Column.t) (field : Field) : option Z :=
  match field with
  | field_r => Column.r_max self
  | field_g => Column.g_max self
  | field_b => Column.b_max self
  end.

(** The six bounds in the order the source lists them. *)
Definition bounds (self : Column.t) : list (option Z) :=
  [Column.r_min self; Column.r_max self; Column.g_min self;
   Column.g_max self; Column.b_min self; Column.b_max self].

(** The loop [for field in 'rgb'] of [Column.check]. *)
Fixpoint check_order (self : Column.t) (fields : list Field) : Result unit :=
  match fields with
  | [] => Ok tt
  | field :: rest =>
      gt ← py_gt (getattr_min self field) (getattr_max self field);
      if (gt : bool) then Raise (ValueError (RangeOutOfOrder field))
      else check_order self rest
  end.

(** [Column.check], the model validator run after the fields are set. *)
Definition Column_check (self : Column.t) : Result Column.t :=
  if Type_.eqb (Column.type self) Type_.ColorInvl then
    if existsb (λ x, py_is None x) (bounds self) then
      Raise (ValueError MissingRange)
    else
      _ ← check_order self [field_r; field_g; field_b];
      Ok self
  else
    if negb (py_is (Column.r_min self) (Column.r_max self)
             && py_is (Column.r_max self) (Column.g_min self)
             && py_is (Column.g_min self) (Column.g_max self)
             && py_is (Column.g_max self) (Column.b_min self)
             && py_is (Column.b_min self) (Column.b_max self)
             && py_is (Column.b_max self) None) then
      Raise (ValueError (UnexpectedRange (Column.type self)))
    else Ok self.

(** [Optional[conint(ge=0, le=255)]] *)
Definition conint_0_255 (x : option Z) : bool :=
  match x with
  | None => true
  | Some z => (0 <=? z) && (z <=? 255)
  end.

(** [Column(name=..., type=..., r_min=..., ...)]: pydantic validates the
    fields, then runs [check]. *)
Definition Column_init (name : string) (type : Type_.t)
    (r_min r_max g_min g_max b_min b_max : option Z) : Result Column.t :=
  if forallb conint_0_255 [r_min; r_max; g_min; g_max; b_min; b_max] then
    Column_check (Column.mk name type r_min r_max g_min g_max b_min b_max)
  else Raise (ValueError ConstraintViolation).

(** The asserted condition of [check_value], by type. *)
Definition check_value_assertion (self : Column.t) (value : Value) : Result bool :=
  match Column.type self with
  | Type_.Integer =>
      Ok match value with VInt _ => true | _ => false end
  | Type_.Real =>
      Ok match value with VInt _ | VDecimal _ => true | _ => false end
  | Type_.Char =>
      Ok match value with VStr s => (len s =? 1)%nat | _ => false end
  | Type_.String =>
      Ok match value with VStr _ => true | _ => false end
  | Type_.Color =>
      Ok match value with VColor _ => true | _ => false end
  | Type_.ColorInvl =>
      match value with
      | VColor c =>
          and_then (py_le (Column.r_min self) (Some (Color.r c)))
         (and_then (py_le (Some (Color.r c)) (Column.r_max self))
         (and_then (py_le (Column.g_min self) (Some (Color.g c)))
         (and_then (py_le (Some (Color.g c)) (Column.g_max self))
         (and_then (py_le (Column.b_min self) (Some (Color.b c)))
                   (py_le (Some (Color.b c)) (Column.b_max self))))))
      | _ => Ok false
      end
  end.

(** [Column.check_value]: a failed assertion becomes the [ValueError]. *)
Definition Column_check_value (self : Column.t) (value : Value) : Result unit :=
  ok ← check_value_assertion self value;
  if (ok : bool) then Ok tt else Raise (ValueError (TypeMismatch self value)).

(** [Column.get_type] *)
Definition Column_get_type (self : Column.t) (name : string) : Result Column.t :=
  Column_init name (Column.type self)
    (Column.r_min self) (Column.r_max self)
    (Column.r_min self) (Column.r_max self)
    (Column.r_min self) (Column.r_max self).

(** [a == b] on columns (pydantic compares the fields). *)
Definition Column_eq (a b : Column.t) : bool :=
  bool_decide (Column.name a = Column.name b)
  && Type_.eqb (Column.type a) (Column.type b)
  && forallb (λ p, bool_decide (p.1 = p.2)) (zip (bounds a) (bounds b)).

(** ** Table (models.py) *)

Module Table.
Record t := mk {
  id : nat;
  name : string;
  columns : list Column.t;
  _rows : list (nat * Row.t);
  _next_id : nat
}.
End Table.

Module TableDifference.
Record t := mk {
  left_table : Table.t;
  right_table : Table.t;
  columns : list Column.t;
  rows : list (nat * Row.t)
}.
End TableDifference.

(** [Table(id=..., name=..., columns=...)]: no rows, counter at 0. *)
Definition Table_init (id : nat) (name : string) (columns : list Column.t) : Table.t :=
  Table.mk id name columns [] 0.

(** The loop [for i in range(len(self.columns))] of [add_row]; indexing past
    the end of a list is an [IndexError]. *)
Fixpoint check_cells (columns : list Column.t) (cells : list Value)
    (range : list nat) : Result unit :=
  match range with
  | [] => Ok tt
  | i :: rest =>
      match columns !! i, cells !! i with
      | Some column, Some cell =>
          _ ← Column_check_value column cell;
          check_cells columns cells rest
      | _, _ => Raise IndexError
      end
  end.

(** [Table.add_row]: the outcome and [self] after the call. *)
Definition Table_add_row (self : Table.t) (cells : list Value)
    : Result Row.t * Table.t :=
  if negb (length cells =? length (Table.columns self))%nat then
    (Raise (ValueError RowLengthMismatch), self)
  else
    match check_cells (Table.columns self) cells
            (seq 0 (length (Table.columns self))) with
    | Raise e => (Raise e, self)
    | Ok _ =>
        let row := Row.mk (Table._next_id self) cells in
        (Ok row,
         Table.mk (Table.id self) (Table.name self) (Table.columns self)
           (PyDict.set (Table._rows self) (Table._next_id self) row)
           (Table._next_id self + 1)%nat)
    end.

(** [Table.remove_row] *)
Definition Table_remove_row (self : Table.t) (id : nat) : Table.t :=
  if PyDict.contains (Table._rows self) id then
    Table.mk (Table.id self) (Table.name self) (Table.columns self)
      (PyDict.del (Table._rows self) id) (Table._next_id self)
  else self.

(** [Table.contains_row] *)
Definition Table_contains_row (self : Table.t) (row : Row.t) : bool :=
  existsb (λ value, list_eq (Row.cells row) (Row.cells value))
    (PyDict.values (Table._rows self)).

(** [any(l.get_type() != r.get_type() for l, r in zip(...))] *)
Fixpoint any_type_differs (pairs : list (Column.t * Column.t)) : Result bool :=
  match pairs with
  | [] => Ok false
  | (l, r) :: rest =>
      lt ← Column_get_type l "";
      rt ← Column_get_type r "";
      if negb (Column_eq lt rt) then Ok true else any_type_differs rest
  end.

(** The name given to a column of the difference. *)
Definition difference_name (l r : Column.t) : string :=
  if bool_decide (Column.name l = Column.name r) then Column.name l
  else "'" +:+ Column.name l +:+ "' / '" +:+ Column.name r +:+ "'".

(** [[l.get_type(...) for l, r in zip(...)]] *)
Fixpoint difference_columns (pairs : list (Column.t * Column.t))
    : Result (list Column.t) :=
  match pairs with
  | [] => Ok []
  | (l, r) :: rest =>
      column ← Column_get_type l (difference_name l r);
      columns ← difference_columns rest;
      Ok (column :: columns)
  end.

(** The loop [for id, row in left._rows.items()] of [__sub__]. *)
Fixpoint difference_rows (right : Table.t) (items : list (nat * Row.t))
    (rows : list (nat * Row.t)) : list (nat * Row.t) :=
  match items with
  | [] => rows
  | (id, row) :: rest =>
      difference_rows right rest
        (if negb (Table_contains_row right row) then PyDict.set rows id row
         else rows)
  end.

(** [Table.__sub__] *)
Definition Table_sub (left right : Table.t) : Result TableDifference.t :=
  if negb (length (Table.columns left) =? length (Table.columns right))%nat then
    Raise (ValueError IncompatibleColumnCount)
  else
    differs ← any_type_differs (zip (Table.columns left) (Table.columns right));
    if (differs : bool) then Raise (ValueError IncompatibleColumnTypes)
    else
      columns ← difference_columns (zip (Table.columns left) (Table.columns right));
      Ok (TableDifference.mk left right columns
            (difference_rows right (Table._rows left) [])).

(** ** Database (models.py) *)

Module Database.
Record t := mk {
  name : string;
  tables : list (nat * Table.t);
  _next_id : nat
}.
End Database.

(** [Database(name=...)] *)
Definition Database_init (name : string) : Database.t :=
  Database.mk name [] 0.

(** [Database.add_table]: the new table and [self] after the call. *)
Definition Database_add_table (self : Database.t) (name : string)
    (columns : list Column.t) : Table.t * Database.t :=
  let table := Table_init (Database._next_id self) name columns in
  (table,
   Database.mk (Database.name self)
     (PyDict.set (Database.tables self) (Database._next_id self) table)
     (Database._next_id self + 1)%nat).

(** [Database.remove_table] *)
Definition Database_remove_table (self : Database.t) (id : nat) : Database.t :=
  if PyDict.contains (Database.tables self) id then
    Database.mk (Database.name self)
      (PyDict.del (Database.tables self) id) (Database._next_id self)
  else self.

(** ** The request layer (main.py) *)

(** The module-level [databases] registry. *)
Abbreviation Databases := (list (string * Database.t)).

Definition get_database (databases : Databases) (database_name : string)
    : Result Database.t :=
  match PyDict.get databases database_name with
  | Some database => Ok database
  | None => Raise (HTTPException 404 (DatabaseNotFound database_name))
  end.

Definition get_table (databases : Databases) (database_name : string)
    (table_id : nat) : Result Table.t :=
  database ← get_database databases database_name;
  match PyDict.get (Database.tables database) table_id with
  | Some table => Ok table
  | None => Raise (HTTPException 404 (TableNotFound database_name table_id))
  end.

Definition get_row (databases : Databases) (database_name : string)
    (table_id row_id : nat) : Result Row.t :=
  table ← get_table databases database_name table_id;
  match PyDict.get (Table._rows table) row_id with
  | Some row => Ok row
  | None =>
      Raise (HTTPException 404 (RowNotFound database_name table_id row_id))
  end.

(** The registry after [row.cells[column_id] = value].  The row object is
    the one held by its table, the table the one held by its database and
    the database the one held by the registry, so the assignment shows
    through the whole path; every key keeps its position. *)
Definition Table_store_cells (table : Table.t) (row_id : nat)
    (cells : list Value) : Table.t :=
  match PyDict.get (Table._rows table) row_id with
  | None => table
  | Some row =>
      Table.mk (Table.id table) (Table.name table) (Table.columns table)
        (PyDict.set (Table._rows table) row_id (Row.mk (Row.id row) cells))
        (Table._next_id table)
  end.

Definition Database_store_cells (database : Database.t) (table_id row_id : nat)
    (cells : list Value) : Database.t :=
  match PyDict.get (Database.tables database) table_id with
  | None => database
  | Some table =>
      Database.mk (Database.name database)
        (PyDict.set (Database.tables database) table_id
           (Table_store_cells table row_id cells))
        (Database._next_id database)
  end.

Definition store_cells (databases : Databases) (database_name : string)
    (table_id row_id : nat) (cells : list Value) : Databases :=
  match PyDict.get databases database_name with
  | None => databases
  | Some database =>
      PyDict.set databases database_name
        (Database_store_cells database table_id row_id cells)
  end.

(** [update_cell_value]: the outcome and the registry after the call. *)
Definition update_cell_value (databases : Databases) (database_name : string)
    (table_id row_id column_id : nat) (value : Value)
    : Result Row.t * Databases :=
  match get_table databases database_name table_id with
  | Raise e => (Raise e, databases)
  | Ok table =>
  match get_row databases database_name table_id row_id with
  | Raise e => (Raise e, databases)
  | Ok row =>
      if (length (Table.columns table) <=? column_id)%nat then
        (Raise (HTTPException 404
                  (ColumnNotFound database_name table_id column_id)),
         databases)
      else
        match Table.columns table !! column_id with
        | None => (Raise IndexError, databases)
        | Some column =>
            match Column_check_value column value with
            | Raise (ValueError err) =>
                (Raise (HTTPException 400 (ErrorText err)), databases)
            | Raise e => (Raise e, databases)
            | Ok _ =>
                if (column_id <? length (Row.cells row))%nat then
                  let cells := <[column_id := value]> (Row.cells row) in
                  (Ok (Row.mk (Row.id row) cells),
                   store_cells databases database_name table_id row_id cells)
                else (Raise IndexError, databases)
            end
        end
  end
  end.


(** ** The other handlers of main.py *)

(** The registry after a method call changed the table object held under
    [table_id] by the database held under [database_name]: both keep their
    places. *)
Definition Database_store_table (database : Database.t) (table_id : nat)
    (table : Table.t) : Database.t :=
  Database.mk (Database.name database)
    (PyDict.set (Database.tables database) table_id table)
    (Database._next_id database).

Definition store_table (databases : Databases) (database_name : string)
    (table_id : nat) (table : Table.t) : Databases :=
  match PyDict.get databases database_name with
  | None => databases
  | Some database =>
      PyDict.set databases database_name
        (Database_store_table database table_id table)
  end.

(** [get_databases]: [list(databases)], the names in insertion order. *)
Definition get_databases (databases : Databases) : list string :=
  PyDict.keys databases.

(** The [HTTPException] of [create_database]. *)
Inductive Conflict :=
| DatabaseExists (status_code : nat) (database_name : string).

(** [create_database]: the outcome and the registry after the call. *)
Definition create_database (databases : Databases) (name : string)
    : (Conflict + Database.t) * Databases :=
  if PyDict.contains databases name then
    (inl (DatabaseExists 409 name), databases)
  else
    let database := Database_init name in
    (inr database, PyDict.set databases name database).

(** [delete_database] *)
Definition delete_database (databases : Databases) (database_name : string)
    : Result unit * Databases :=
  match get_database databases database_name with
  | Raise e => (Raise e, databases)
  | Ok _ => (Ok (), PyDict.del databases database_name)
  end.

(** [create_table] *)
Definition create_table (databases : Databases) (database_name : string)
    (name : string) (columns : list Column.t) : Result Table.t * Databases :=
  match get_database databases database_name with
  | Raise e => (Raise e, databases)
  | Ok database =>
      let after := Database_add_table database name columns in
      (Ok after.1, PyDict.set databases database_name after.2)
  end.

(** [delete_table] *)
Definition delete_table (databases : Databases) (database_name : string)
    (table_id : nat) : Result unit * Databases :=
  match get_table databases database_name table_id with
  | Raise e => (Raise e, databases)
  | Ok _ =>
      match get_database databases database_name with
      | Raise e => (Raise e, databases)
      | Ok database =>
          (Ok (),
           PyDict.set databases database_name
             (Database_remove_table database table_id))
      end
  end.

(** [get_table_rows] *)
Definition get_table_rows (databases : Databases) (database_name : string)
    (table_id : nat) : Result (list (nat * Row.t)) :=
  table ← get_table databases database_name table_id;
  Ok (Table._rows table).

(** [create_row]: a [ValueError] of [add_row] becomes the 400 response. *)
Definition create_row (databases : Databases) (database_name : string)
    (table_id : nat) (cells : list Value) : Result Row.t * Databases :=
  match get_table databases database_name table_id with
  | Raise e => (Raise e, databases)
  | Ok table =>
      let after := Table_add_row table cells in
      (match after.1 with
       | Raise (ValueError err) => Raise (HTTPException 400 (ErrorText err))
       | outcome => outcome
       end,
       store_table databases database_name table_id after.2)
  end.

(** [delete_row] *)
Definition delete_row (databases : Databases) (database_name : string)
    (table_id row_id : nat) : Result unit * Databases :=
  match get_row databases database_name table_id row_id with
  | Raise e => (Raise e, databases)
  | Ok _ =>
      match get_table databases database_name table_id with
      | Raise e => (Raise e, databases)
      | Ok table =>
          (Ok (),
           store_table databases database_name table_id
             (Table_remove_row table row_id))
      end
  end.

(** [get_table_difference]: the [ValueError] of [__sub__] is not caught. *)
Definition get_table_difference (databases : Databases)
    (database_name : string) (left_table_id right_table_id : nat)
    : Result TableDifference.t :=
  left_table ← get_table databases database_name left_table_id;
  right_table ← get_table databases database_name right_table_id;
  Table_sub left_table right_table.

(** * Notions used by the statements *)

(** The constructor applied to the fields that [c] packages. *)
Definition construct (c : Column.t) : Result Column.t :=
  Column_init (Column.name c) (Column.type c)
    (Column.r_min c) (Column.r_max c) (Column.g_min c) (Column.g_max c)
    (Column.b_min c) (Column.b_max c).

(** A column that its constructor accepts. *)
Definition Column_valid (c : Column.t) : Prop := construct c = Ok c.

(** The channel of a colour that a field letter names. *)
Definition channel (color : Color.t) (field : Field) : Z :=
  match field with
  | field_r => Color.r color
  | field_g => Color.g color
  | field_b => Color.b color
  end.

(** Each channel lies in the inclusive range the column gives it. *)
Definition within_bounds (self : Column.t) (color : Color.t) : Prop :=
  ∀ field, ∃ lo hi,
    getattr_min self field = Some lo ∧ getattr_max self field = Some hi ∧
    lo <= channel color field <= hi.

(** The channel [field] has its minimum above its maximum. *)
Definition out_of_order (self : Column.t) (field : Field) : Prop :=
  ∃ lo hi,
    getattr_min self field = Some lo ∧ getattr_max self field = Some hi ∧
    lo > hi.


(** A colour-interval column used in the examples. *)
Definition shade : Column.t :=
  Column.mk "shade" Type_.ColorInvl
    (Some 10) (Some 20) (Some 0) (Some 255) (Some 5) (Some 5).

(** Two colour-interval columns with the same red range and different green
    and blue ranges. *)
Definition warm : Column.t :=
  Column.mk "warm" Type_.ColorInvl
    (Some 0) (Some 10) (Some 0) (Some 10) (Some 0) (Some 10).

Definition cold : Column.t :=
  Column.mk "cold" Type_.ColorInvl
    (Some 0) (Some 10) (Some 20) (Some 30) (Some 40) (Some 50).

(** The type-only view that [get_type] returns for a valid column. *)
Definition signature (self : Column.t) (name : string) : Column.t :=
  Column.mk name (Column.type self)
    (Column.r_min self) (Column.r_max self)
    (Column.r_min self) (Column.r_max self)
    (Column.r_min self) (Column.r_max self).

(** What a table keeps true of its rows: one entry per id, every id below
    the counter, every row filed under its own id and as long as the
    column list. *)
Definition Table_inv (t : Table.t) : Prop :=
  PyDict.wf (Table._rows t) ∧
  (∀ k, k ∈ PyDict.keys (Table._rows t) → (k < Table._next_id t)%nat) ∧
  (∀ k row, (k, row) ∈ Table._rows t →
     Row.id row = k ∧ length (Row.cells row) = length (Table.columns t)).

(** The tables the program can hold: created over constructed columns, then
    changed by [add_row], [remove_row] and validated cell updates. *)
Inductive Table_reachable : Table.t → Prop :=
| reach_init id name columns :
    Forall Column_valid columns →
    Table_reachable (Table_init id name columns)
| reach_add_row t cells :
    Table_reachable t → Table_reachable (Table_add_row t cells).2
| reach_remove_row t id :
    Table_reachable t → Table_reachable (Table_remove_row t id)
| reach_update t row_id row column_id column value :
    Table_reachable t →
    PyDict.get (Table._rows t) row_id = Some row →
    Table.columns t !! column_id = Some column →
    Column_check_value column value = Ok () →
    Table_reachable
      (Table_store_cells t row_id (<[column_id := value]> (Row.cells row))).

(** Calls made on a table, and the ids of the rows that the [add_row] calls
    among them return, in order. *)
Inductive RowOp :=
| add_row_op (cells : list Value)
| remove_row_op (id : nat).

Fixpoint run_row_ops (self : Table.t) (ops : list RowOp) : list nat * Table.t :=
  match ops with
  | [] => ([], self)
  | add_row_op cells :: rest =>
      let after := Table_add_row self cells in
      let run := run_row_ops after.2 rest in
      (match after.1 with
       | Ok row => Row.id row :: run.1
       | Raise _ => run.1
       end, run.2)
  | remove_row_op id :: rest => run_row_ops (Table_remove_row self id) rest
  end.

(** Calls made on a database, and the ids of the tables that the
    [add_table] calls among them return, in order. *)
Inductive TableOp :=
| add_table_op (name : string) (columns : list Column.t)
| remove_table_op (id : nat).

Fixpoint run_table_ops (self : Database.t) (ops : list TableOp)
    : list nat * Database.t :=
  match ops with
  | [] => ([], self)
  | add_table_op name columns :: rest =>
      let after := Database_add_table self name columns in
      let run := run_table_ops after.2 rest in
      (Table.id after.1 :: run.1, run.2)
  | remove_table_op id :: rest =>
      run_table_ops (Database_remove_table self id) rest
  end.

(** The tables of the difference example: two columns (Integer, String),
    left rows [1,"a"], [2,"b"], [1,"a"] and right row [1,"a"]. *)
Definition number : Column.t :=
  Column.mk "number" Type_.Integer None None None None None None.

Definition label : Column.t :=
  Column.mk "label" Type_.String None None None None None None.

Definition left_empty : Table.t := Table_init 0 "left" [number; label].

Definition left_table : Table.t :=
  (run_row_ops left_empty
     [add_row_op [VInt 1; VStr "a"]; add_row_op [VInt 2; VStr "b"];
      add_row_op [VInt 1; VStr "a"]]).2.

Definition right_table : Table.t :=
  (Table_add_row (Table_init 1 "right" [number; label]) [VInt 1; VStr "a"]).2.

(** A [Real] column holding the integer 1 in one table and the decimal 1.0
    in another. *)
Definition price : Column.t :=
  Column.mk "price" Type_.Real None None None None None None.

Definition integer_prices : Table.t :=
  (Table_add_row (Table_init 0 "integer prices" [price]) [VInt 1]).2.

Definition decimal_prices : Table.t :=
  (Table_add_row (Table_init 1 "decimal prices" [price])
     [VDecimal (Decimal.mk 10 (-1))]).2.

Definition cost : Column.t :=
  Column.mk "cost" Type_.Real None None None None None None.

Definition costs : Table.t := Table_init 2 "costs" [cost].

Definition numbers : Table.t := Table_init 3 "numbers" [number].

(** Tables without columns: every row is the empty row. *)
Definition two_empty_rows : Table.t :=
  (run_row_ops (Table_init 4 "two" []) [add_row_op []; add_row_op []]).2.

Definition one_empty_row : Table.t :=
  (Table_add_row (Table_init 5 "one" []) []).2.

Definition no_rows : Table.t := Table_init 6 "none" [].

(** A registry with one database holding the table [right_table]. *)
Definition registry : Databases :=
  [("shop", Database.mk "shop" [(1%nat, right_table)] 2)].

(** A colour-interval column whose red range leaves 0..255. *)
Definition bright : Column.t :=
  Column.mk "bright" Type_.ColorInvl
    (Some 300) (Some 400) (Some 0) (Some 9) (Some 0) (Some 9).

(** Every stored cell passes the check of its column. *)
Definition Table_cells_checked (t : Table.t) : Prop :=
  ∀ k row i column cell,
    (k, row) ∈ Table._rows t →
    Table.columns t !! i = Some column → Row.cells row !! i = Some cell →
    Column_check_value column cell = Ok ().

(** The requests that change the registry. *)
Inductive Request :=
| req_create_database (name : string)
| req_delete_database (database_name : string)
| req_create_table (database_name name : string) (columns : list Column.t)
| req_delete_table (database_name : string) (table_id : nat)
| req_create_row (database_name : string) (table_id : nat) (cells : list Value)
| req_delete_row (database_name : string) (table_id row_id : nat)
| req_update_cell_value (database_name : string)
    (table_id row_id column_id : nat) (value : Value).

(** The registry after a request was handled. *)
Definition serve (databases : Databases) (request : Request) : Databases :=
  match request with
  | req_create_database name => (create_database databases name).2
  | req_delete_database database_name =>
      (delete_database databases database_name).2
  | req_create_table database_name name columns =>
      (create_table databases database_name name columns).2
  | req_delete_table database_name table_id =>
      (delete_table databases database_name table_id).2
  | req_create_row database_name table_id cells =>
      (create_row databases database_name table_id cells).2
  | req_delete_row database_name table_id row_id =>
      (delete_row databases database_name table_id row_id).2
  | req_update_cell_value database_name table_id row_id column_id value =>
      (update_cell_value databases database_name table_id row_id column_id
         value).2
  end.

(** The columns a request carries were built by the [Column] constructor. *)
Definition Request_columns_valid (request : Request) : Prop :=
  match request with
  | req_create_table _ _ columns => Forall Column_valid columns
  | _ => True
  end.

(** The registries the program can hold: empty at start, then changed by
    the handlers. *)
Inductive Registry_reachable : Databases → Prop :=
| registry_empty : Registry_reachable []
| registry_serve databases request :
    Registry_reachable databases → Request_columns_valid request →
    Registry_reachable (serve databases request).

(** What a database keeps true of its tables, and the registry of its
    databases. *)
Definition Database_inv (database : Database.t) : Prop :=
  PyDict.wf (Database.tables database) ∧
  (∀ k, k ∈ PyDict.keys (Database.tables database) →
        (k < Database._next_id database)%nat) ∧
  (∀ k table, (k, table) ∈ Database.tables database →
     Table.id table = k ∧ Table_reachable table).

Definition Registry_inv (databases : Databases) : Prop :=
  PyDict.wf databases ∧
  (∀ name database, (name, database) ∈ databases →
     Database.name database = name ∧ Database_inv database).

(** A registry built by requests: the database "shop" with the table
    "stock" (two rows) and the table "prices" (no row). *)
Definition served : Databases :=
  foldl serve []
    [req_create_database "shop";
     req_create_table "shop" "stock" [number; label];
     req_create_row "shop" 0 [VInt 1; VStr "a"];
     req_create_row "shop" 0 [VInt 2; VStr "b"];
     req_create_table "shop" "prices" [price]].

(** A [Char] column. *)
Definition initial : Column.t :=
  Column.mk "initial" Type_.Char None None None None None None.

(** Two tables of one colour-interval column each: same red range,
    different green and blue ranges. *)
Definition warm_table : Table.t := Table_init 0 "warm things" [warm].

Definition cold_table : Table.t := Table_init 1 "cold things" [cold].
(** * Properties *)

(** ** Dictionaries *)

Section dict_facts.
Context {K V : Type} `{EqDecision K}.
Implicit Types (d : list (K * V)) (k : K) (v : V).

Lemma get_set_eq d k v : PyDict.get (PyDict.set d k v) k = Some v.
Proof.
  induction d as [|[k' v'] d IH]; csimpl.
  - by rewrite decide_True.
  - destruct (decide (k = k')) as [->|Hne]; csimpl.
    + by rewrite decide_True.
    + by rewrite decide_False.
Qed.

Lemma get_set_ne d k k' v :
  k ≠ k' → PyDict.get (PyDict.set d k v) k' = PyDict.get d k'.
Proof.
  intros Hne. induction d as [|[k0 v0] d IH]; csimpl.
  - by rewrite decide_False.
  - destruct (decide (k = k0)) as [->|Hk]; csimpl.
    + by rewrite !decide_False.
    + by rewrite IH.
Qed.

Lemma get_None_keys d k : PyDict.get d k = None ↔ k ∉ PyDict.keys d.
Proof.
  unfold PyDict.keys. induction d as [|[k' v'] d IH]; csimpl.
  - split; [intros _; apply not_elem_of_nil | done].
  - rewrite not_elem_of_cons. destruct (decide (k = k')) as [->|Hne].
    + split; [done | by intros [? _]].
    + rewrite IH. tauto.
Qed.

Lemma get_Some_elem_of d k v : PyDict.get d k = Some v → (k, v) ∈ d.
Proof.
  induction d as [|[k' v'] d IH]; csimpl; [done|].
  destruct (decide (k = k')) as [->|Hne].
  - intros [= ->]. left.
  - intros Hget. right. by apply IH.
Qed.

Lemma elem_of_get d k v : PyDict.wf d → (k, v) ∈ d → PyDict.get d k = Some v.
Proof.
  unfold PyDict.wf, PyDict.keys.
  induction d as [|[k' v'] d IH]; csimpl.
  - intros _ Hin. by apply elem_of_nil in Hin.
  - intros [Hk' Hd]%NoDup_cons [[= -> ->]|Hin]%elem_of_cons.
    + by rewrite decide_True.
    + rewrite decide_False; [by apply IH|].
      intros ->. apply Hk'. by apply (list_elem_of_fmap_2 fst _ (k', v)).
Qed.

Lemma keys_set d k v :
  PyDict.keys (PyDict.set d k v) =
    if PyDict.contains d k then PyDict.keys d else PyDict.keys d ++ [k].
Proof.
  unfold PyDict.contains, PyDict.keys.
  induction d as [|[k' v'] d IH]; csimpl; [done|].
  destruct (decide (k = k')) as [->|Hne]; csimpl; [done|].
  rewrite IH. by destruct (PyDict.get d k).
Qed.

Lemma get_del_ne d k k' :
  k ≠ k' → PyDict.get (PyDict.del d k) k' = PyDict.get d k'.
Proof.
  intros Hne. induction d as [|[k0 v0] d IH]; csimpl; [done|].
  destruct (decide (k = k0)) as [->|Hk]; csimpl.
  - by rewrite decide_False.
  - by rewrite IH.
Qed.

Lemma keys_del_subseteq d k : PyDict.keys (PyDict.del d k) ⊆ PyDict.keys d.
Proof.
  unfold PyDict.keys. induction d as [|[k0 v0] d IH]; csimpl; [done|].
  destruct (decide (k = k0)) as [->|Hk]; csimpl.
  - by apply list_subseteq_cons.
  - intros x [->|Hx]%elem_of_cons; [left | right; by apply IH].
Qed.

Lemma get_del_eq d k : PyDict.wf d → PyDict.get (PyDict.del d k) k = None.
Proof.
  unfold PyDict.wf, PyDict.keys.
  induction d as [|[k0 v0] d IH]; csimpl; [done|].
  intros [Hk0 Hd]%NoDup_cons.
  destruct (decide (k = k0)) as [->|Hk]; csimpl.
  - by apply get_None_keys.
  - rewrite decide_False; auto.
Qed.

Lemma wf_set d k v : PyDict.wf d → PyDict.wf (PyDict.set d k v).
Proof.
  unfold PyDict.wf. intros Hd. rewrite keys_set.
  unfold PyDict.contains. destruct (PyDict.get d k) eqn:Hget; [done|].
  apply NoDup_app. split_and!; [done | | apply NoDup_singleton].
  intros x Hx ->%list_elem_of_singleton. by apply get_None_keys in Hget.
Qed.

Lemma wf_del d k : PyDict.wf d → PyDict.wf (PyDict.del d k).
Proof.
  unfold PyDict.wf, PyDict.keys.
  induction d as [|[k0 v0] d IH]; csimpl; [done|].
  intros [Hk0 Hd]%NoDup_cons.
  destruct (decide (k = k0)) as [->|Hk]; csimpl; [done|].
  apply NoDup_cons. split; [|auto].
  intros Hin. apply Hk0. by apply (keys_del_subseteq d k).
Qed.
End dict_facts.

(** ** Columns *)

Lemma Type_eqb_eq a b : Type_.eqb a b = true ↔ a = b.
Proof. destruct a, b; simpl; split; congruence. Qed.

Lemma Type_eqb_refl a : Type_.eqb a a = true.
Proof. by apply Type_eqb_eq. Qed.

Lemma Column_eta (c : Column.t) :
  Column.mk (Column.name c) (Column.type c) (Column.r_min c) (Column.r_max c)
    (Column.g_min c) (Column.g_max c) (Column.b_min c) (Column.b_max c) = c.
Proof. by destruct c. Qed.

(** A valid [ColorInvl] column has its six bounds, each in 0..255 and each
    minimum at most its maximum; any other valid column has none. *)
Lemma Column_valid_inv c :
  Column_valid c →
  (Column.type c = Type_.ColorInvl ∧
   ∃ rl rh gl gh bl bh,
     bounds c = [Some rl; Some rh; Some gl; Some gh; Some bl; Some bh] ∧
     0 <= rl <= rh ∧ rh <= 255 ∧ 0 <= gl <= gh ∧ gh <= 255 ∧
     0 <= bl <= bh ∧ bh <= 255) ∨
  (Column.type c ≠ Type_.ColorInvl ∧ bounds c = [None; None; None; None; None; None]).
Proof.
  destruct c as [n ty rl rh gl gh bl bh].
  unfold Column_valid, construct, Column_init, Column_check, bounds; simpl.
  destruct ty; simpl;
    destruct rl as [rl|], rh as [rh|], gl as [gl|], gh as [gh|],
             bl as [bl|], bh as [bh|]; simpl;
    rewrite ?andb_false_r, ?andb_true_r; simpl;
    repeat (match goal with
            | |- context [if ?b then _ else _] => destruct b eqn:?
            end; simpl); try discriminate; intros _;
    try (right; split; [discriminate | reflexivity]).
  left. split; [done|]. exists rl, rh, gl, gh, bl, bh. split; [done|]. lia.
Qed.

Lemma elem_of_bounds x (c : Column.t) :
  x ∈ bounds c ↔
  x = Column.r_min c ∨ x = Column.r_max c ∨ x = Column.g_min c ∨
  x = Column.g_max c ∨ x = Column.b_min c ∨ x = Column.b_max c.
Proof. unfold bounds. rewrite !elem_of_cons, elem_of_nil. tauto. Qed.

Lemma out_of_order_Some self field lo hi :
  getattr_min self field = Some lo → getattr_max self field = Some hi →
  out_of_order self field ↔ (lo >? hi) = true.
Proof.
  intros Hlo Hhi. unfold out_of_order. rewrite Hlo, Hhi. split.
  - intros (lo' & hi' & [= <-] & [= <-] & Hgt). lia.
  - intros Hgt. exists lo, hi. split_and!; [done..|lia].
Qed.

(** The loop over the channels stops at the first one out of order. *)
Lemma check_order_spec self :
  None ∉ bounds self →
  (check_order self [field_r; field_g; field_b] = Ok tt ∧
   ∀ field, ¬ out_of_order self field) ∨
  (∃ field, out_of_order self field ∧
     check_order self [field_r; field_g; field_b] =
       Raise (ValueError (RangeOutOfOrder field))).
Proof.
  intros Hnone. rewrite elem_of_bounds in Hnone.
  destruct self as [n ty [rl|] [rh|] [gl|] [gh|] [bl|] [bh|]];
    simpl in Hnone; try (exfalso; tauto). clear Hnone.
  set (self := Column.mk n ty _ _ _ _ _ _).
  pose proof (out_of_order_Some self field_r rl rh eq_refl eq_refl) as Hr.
  pose proof (out_of_order_Some self field_g gl gh eq_refl eq_refl) as Hg.
  pose proof (out_of_order_Some self field_b bl bh eq_refl eq_refl) as Hb.
  unfold check_order; simpl.
  destruct (rl >? rh) eqn:Er; simpl.
  { right. exists field_r. split; [by apply Hr | done]. }
  destruct (gl >? gh) eqn:Eg; simpl.
  { right. exists field_g. split; [by apply Hg | done]. }
  destruct (bl >? bh) eqn:Eb; simpl.
  { right. exists field_b. split; [by apply Hb | done]. }
  left. split; [done|]. intros [] Hf.
  - apply Hr in Hf. congruence.
  - apply Hg in Hf. congruence.
  - apply Hb in Hf. congruence.
Qed.

Lemma existsb_py_is_None (l : list (option Z)) :
  existsb (λ x, py_is None x) l = true ↔ None ∈ l.
Proof.
  rewrite existsb_exists. split.
  - intros ([x|] & Hin & Hx); [done|]. by apply list_elem_of_In.
  - intros Hin. exists None. split; [by apply list_elem_of_In | done].
Qed.

(** The chain of [is] tests of [Column.check] holds when no bound is set. *)
Lemma is_chain_all_None (c : Column.t) :
  py_is (Column.r_min c) (Column.r_max c)
  && py_is (Column.r_max c) (Column.g_min c)
  && py_is (Column.g_min c) (Column.g_max c)
  && py_is (Column.g_max c) (Column.b_min c)
  && py_is (Column.b_min c) (Column.b_max c)
  && py_is (Column.b_max c) None = true ↔ ∀ z, Some z ∉ bounds c.
Proof.
  split.
  - intros Hchain z. rewrite elem_of_bounds.
    destruct c as [n ty [rl|] [rh|] [gl|] [gh|] [bl|] [bh|]]; simpl in *;
      rewrite ?andb_false_r in Hchain; try discriminate.
    intros [|[|[|[|[|]]]]]; discriminate.
  - intros Hnone.
    destruct c as [n ty [rl|] [rh|] [gl|] [gh|] [bl|] [bh|]]; simpl in *;
      try reflexivity; exfalso;
      first [ apply (Hnone rl) | apply (Hnone rh) | apply (Hnone gl)
            | apply (Hnone gh) | apply (Hnone bl) | apply (Hnone bh) ];
      apply elem_of_bounds; simpl; tauto.
Qed.

Lemma construct_check c :
  forallb conint_0_255 (bounds c) = true → construct c = Column_check c.
Proof.
  unfold construct, Column_init, bounds. intros ->. by rewrite Column_eta.
Qed.

(** C6, as the code has it.  With every given bound in 0..255, the range of
    the field type [conint(ge=0, le=255)], column construction fails exactly
    on a violation of the range invariant: a [ColorInvl] column with a bound
    missing raises MissingRange; with all six bounds but some channel's
    minimum above its maximum it raises RangeOutOfOrder (for the first such
    channel); a column of any other type with a bound set raises
    UnexpectedRange; every other combination is constructed. *)
Theorem Column_construction_errors (c : Column.t) :
  forallb conint_0_255 (bounds c) = true →
  (Column.type c = Type_.ColorInvl → None ∈ bounds c →
     construct c = Raise (ValueError MissingRange)) ∧
  (Column.type c = Type_.ColorInvl → None ∉ bounds c →
     (∃ field, out_of_order c field) →
     ∃ field, out_of_order c field ∧
       construct c = Raise (ValueError (RangeOutOfOrder field))) ∧
  (Column.type c ≠ Type_.ColorInvl → (∃ z, Some z ∈ bounds c) →
     construct c = Raise (ValueError (UnexpectedRange (Column.type c)))) ∧
  ((Column.type c = Type_.ColorInvl ∧ (None ∉ bounds c) ∧
      ∀ field, ¬ out_of_order c field) ∨
   (Column.type c ≠ Type_.ColorInvl ∧ ∀ z, Some z ∉ bounds c) →
     construct c = Ok c).
Proof.
  intros Hfields. rewrite (construct_check c Hfields). unfold Column_check.
  destruct (Type_.eqb (Column.type c) Type_.ColorInvl) eqn:Hty.
  - apply Type_eqb_eq in Hty.
    destruct (existsb (λ x, py_is None x) (bounds c)) eqn:Hmissing.
    + apply existsb_py_is_None in Hmissing. split_and!; try done.
      intros [(_ & Hnone & _)|[Hne _]]; done.
    + assert (None ∉ bounds c) as Hnone.
      { intros Hin%existsb_py_is_None. congruence. }
      destruct (check_order_spec c Hnone) as [[-> Hordered]|(f & Hf & ->)];
        simpl; split_and!; try done.
      * intros _ _ [f Hf]. by destruct (Hordered f).
      * intros _ _ _. by exists f.
      * intros [(_ & _ & Hordered)|[Hne _]]; [by destruct (Hordered f) | done].
  - assert (Column.type c ≠ Type_.ColorInvl) as Hne.
    { intros Heq%Type_eqb_eq. congruence. }
    match goal with |- context [negb ?b] => destruct b eqn:Hchain end; simpl.
    + pose proof (proj1 (is_chain_all_None c) Hchain) as Hnone.
      split_and!; try done.
      intros _ [z Hz]. by destruct (Hnone z).
    + split_and!; try done.
      intros [[Heq _]|[_ Hnone]]; [done|].
      apply (is_chain_all_None c) in Hnone. congruence.
Qed.

Lemma Column_construction_errors_witness :
  construct (Column.mk "c" Type_.ColorInvl
               (Some 10) (Some 5) (Some 0) (Some 9) (Some 0) (Some 9)) =
    Raise (ValueError (RangeOutOfOrder field_r)) ∧
  construct (Column.mk "c" Type_.ColorInvl
               (Some 1) (Some 5) None (Some 9) (Some 0) (Some 9)) =
    Raise (ValueError MissingRange) ∧
  construct (Column.mk "n" Type_.Integer None None None (Some 9) None None) =
    Raise (ValueError (UnexpectedRange Type_.Integer)) ∧
  construct (Column.mk "n" Type_.Integer None None None None None None) =
    Ok (Column.mk "n" Type_.Integer None None None None None None).
Proof.
  split_and!.
  - destruct (proj1 (proj2 (Column_construction_errors
      (Column.mk "c" Type_.ColorInvl
         (Some 10) (Some 5) (Some 0) (Some 9) (Some 0) (Some 9)) eq_refl))
      eq_refl) as (field & Hfield & Hraise).
    + unfold bounds; simpl. rewrite !elem_of_cons, elem_of_nil.
      intros [|[|[|[|[|[|]]]]]]; done.
    + exists field_r, 10, 5. split_and!; [done..|lia].
    + rewrite Hraise. destruct field; try reflexivity;
        destruct Hfield as (lo & hi & [= <-] & [= <-] & Hgt); lia.
  - apply (proj1 (Column_construction_errors
      (Column.mk "c" Type_.ColorInvl
         (Some 1) (Some 5) None (Some 9) (Some 0) (Some 9)) eq_refl)); [done|].
    apply elem_of_bounds; simpl. tauto.
  - apply (proj1 (proj2 (proj2 (Column_construction_errors
      (Column.mk "n" Type_.Integer None None None (Some 9) None None)
      eq_refl)))); [done|].
    exists 9. apply elem_of_bounds; simpl. tauto.
  - apply (proj2 (proj2 (proj2 (Column_construction_errors
      (Column.mk "n" Type_.Integer None None None None None None) eq_refl)))).
    right. split; [done|]. intros z Hz%elem_of_bounds. simpl in Hz.
    destruct Hz as [|[|[|[|[|]]]]]; done.
Defined.

(** C6, as stated, fails on the code.  A [ColorInvl] column with its six
    bounds present and every minimum at most its maximum is still refused
    when a bound lies outside 0..255: the field type rejects it before the
    invariant is looked at. *)
Lemma Column_bound_outside_field_type :
  construct bright = Raise (ValueError ConstraintViolation) ∧
  Column.type bright = Type_.ColorInvl ∧
  bounds bright =
    [Some 300; Some 400; Some 0; Some 9; Some 0; Some 9] ∧
  Column_check bright = Ok bright.
Proof. split_and!; done. Qed.

(** On a valid column the assertion of [check_value] is evaluated without a
    [TypeError]. *)
Lemma check_value_assertion_total c value :
  Column_valid c → ∃ ok, check_value_assertion c value = Ok ok.
Proof.
  intros [[Hty (rl & rh & gl & gh & bl & bh & Hb & _)]|[Hty _]]%Column_valid_inv;
    unfold check_value_assertion.
  - rewrite Hty. destruct value as [| | |color]; eauto.
    destruct c; unfold bounds in Hb; simpl in *. simplify_eq.
    unfold and_then; simpl.
    repeat (match goal with
            | |- context [if ?b then _ else _] => destruct b
            end; simpl); eauto.
  - destruct (Column.type c); eauto. done.
Qed.

(** [check_value] on a valid column passes or raises the type mismatch. *)
Lemma Column_check_value_cases c value :
  Column_valid c →
  Column_check_value c value = Ok () ∨
  Column_check_value c value = Raise (ValueError (TypeMismatch c value)).
Proof.
  intros Hvalid. unfold Column_check_value.
  destruct (check_value_assertion_total c value Hvalid) as [[] ->]; auto.
Qed.

Lemma and_then_true a b :
  and_then a b = Ok true ↔ a = Ok true ∧ b = Ok true.
Proof.
  unfold and_then. destruct a as [[]|]; simpl; split;
    try tauto; try (intros [? ?]; congruence); congruence.
Qed.

(** C5. For a validly constructed [ColorInvl] column and any value,
    [check_value] accepts exactly the colours whose three channels lie in
    the column's inclusive ranges (a channel equal to a bound passes), and
    raises the type mismatch exactly for every other value: a colour with a
    channel outside its range, or a value that is not a colour. *)
Theorem check_value_ColorInvl (c : Column.t) (value : Value) :
  Column_valid c → Column.type c = Type_.ColorInvl →
  (Column_check_value c value = Ok () ↔
     ∃ color, value = VColor color ∧ within_bounds c color) ∧
  (Column_check_value c value = Raise (ValueError (TypeMismatch c value)) ↔
     ¬ ∃ color, value = VColor color ∧ within_bounds c color).
Proof.
  intros Hvalid Hty.
  assert (Column_check_value c value = Ok () ↔
          ∃ color, value = VColor color ∧ within_bounds c color) as Hok.
  { destruct (Column_valid_inv c Hvalid)
      as [[_ (rl & rh & gl & gh & bl & bh & Hb & _)]|[Hne _]]; [|done].
    unfold Column_check_value, check_value_assertion. rewrite Hty.
    destruct c as [n ty r0 r1 g0 g1 b0 b1]; unfold bounds in Hb; simpl in *.
    simplify_eq.
    destruct value as [| | |color];
      try (simpl; split; [discriminate | by intros (? & ? & _)]).
    match goal with
    | |- (?m ≫= _) = _ ↔ _ =>
        assert (m = Ok true ↔ within_bounds
                  (Column.mk n Type_.ColorInvl (Some rl) (Some rh) (Some gl)
                     (Some gh) (Some bl) (Some bh)) color) as Hbox;
        [|destruct m as [[]|]; simpl]
    end.
    - rewrite !and_then_true. unfold py_le, within_bounds. split.
      + intros (Hr0 & Hr1 & Hg0 & Hg1 & Hb0 & Hb1). simplify_eq.
        intros []; simpl; eexists _, _; (split_and!; [done..|lia|lia]).
      + intros Hbox.
        destruct (Hbox field_r) as (? & ? & [= <-] & [= <-] & ? & ?).
        destruct (Hbox field_g) as (? & ? & [= <-] & [= <-] & ? & ?).
        destruct (Hbox field_b) as (? & ? & [= <-] & [= <-] & ? & ?).
        simpl in *. split_and!; f_equal; lia.
    - split; [|done]. intros _. exists color. split; [done|]. by apply Hbox.
    - split; [done|]. intros (? & [= <-] & Hin). apply Hbox in Hin. done.
    - split; [done|]. intros (? & [= <-] & Hin). apply Hbox in Hin. done. }
  split; [done|]. rewrite <- Hok.
  destruct (Column_check_value_cases c value Hvalid) as [-> | ->].
  - split; [discriminate | by intros []].
  - split; [discriminate | done].
Qed.

Lemma check_value_ColorInvl_witness :
  Column_check_value shade
    (VColor (Color.mk 10 255 5)) = Ok () ∧
  Column_check_value shade
    (VColor (Color.mk 21 0 5)) =
  Raise (ValueError (TypeMismatch shade
    (VColor (Color.mk 21 0 5)))).
Proof.
  split.
  - apply (check_value_ColorInvl shade (VColor (Color.mk 10 255 5)) eq_refl eq_refl).
    exists (Color.mk 10 255 5). split; [done|].
    intros []; simpl; eexists _, _; (split_and!; [done..|lia|lia]).
  - apply (check_value_ColorInvl shade (VColor (Color.mk 21 0 5)) eq_refl eq_refl).
    intros (color & [= <-] & Hbox).
    destruct (Hbox field_r) as (? & ? & [= <-] & [= <-] & ? & ?).
    simpl in *. lia.
Defined.

(** A [Char] column takes one character, whatever the number of bytes of
    its encoding, and neither the empty string nor two characters. *)
Lemma Char_counts_characters :
  Column_check_value initial (VStr "x") = Ok () ∧
  Column_check_value initial (VStr "€") = Ok () ∧
  Column_check_value initial (VStr "") =
    Raise (ValueError (TypeMismatch initial (VStr ""))) ∧
  Column_check_value initial (VStr "x€") =
    Raise (ValueError (TypeMismatch initial (VStr "x€"))).
Proof. split_and!; reflexivity. Qed.

(** [get_type] builds its view of a valid column without an error. *)
Lemma Column_get_type_valid c name :
  Column_valid c → Column_get_type c name = Ok (signature c name).
Proof.
  intros [[Hty (rl & rh & gl & gh & bl & bh & Hb & Hrange)]|[Hty Hb]]%Column_valid_inv;
    destruct c as [n ty r0 r1 g0 g1 b0 b1]; unfold bounds in Hb; simpl in *;
    simplify_eq; unfold Column_get_type, signature, Column_init; simpl.
  - assert ((0 <=? rl) && (rl <=? 255) = true) as -> by lia.
    assert ((0 <=? rh) && (rh <=? 255) = true) as -> by lia.
    simpl. unfold Column_check; simpl.
    assert ((rl >? rh) = false) as -> by lia. done.
  - unfold Column_check; simpl. by destruct ty.
Qed.

Lemma Column_eq_eq a b : Column_eq a b = true ↔ a = b.
Proof.
  unfold Column_eq, bounds. destruct a, b; simpl.
  rewrite !andb_true_iff, !bool_decide_eq_true, Type_eqb_eq. simpl.
  split; [intros ((-> & ->) & -> & -> & -> & -> & -> & -> & _); done|].
  intros [= -> -> -> -> -> -> -> ->]. done.
Qed.

(** What the comparison of two [get_type] views looks at: the type and the
    red range only. *)
Lemma signature_eq_iff a b :
  signature a "" = signature b "" ↔
  Column.type a = Column.type b ∧ Column.r_min a = Column.r_min b ∧
  Column.r_max a = Column.r_max b.
Proof.
  unfold signature. split.
  - intros [= -> -> ->]. done.
  - intros (-> & -> & ->). done.
Qed.

(** C1, evaluated on the code.  [get_type] fills the green and blue ranges
    of its view with the red range: the columns [warm] and [cold], whose
    green and blue ranges differ, get one and the same view, in which the
    ranges of [cold] (20..30 and 40..50) do not appear. *)
Theorem get_type_copies_red_range :
  Column_valid warm ∧ Column_valid cold ∧
  bounds warm ≠ bounds cold ∧
  Column_get_type cold "" =
    Ok (Column.mk "" Type_.ColorInvl
          (Some 0) (Some 10) (Some 0) (Some 10) (Some 0) (Some 10)) ∧
  Column_get_type warm "" = Column_get_type cold "".
Proof. split_and!; done. Qed.

(** ** Rows of a table *)

(** The validation loop passes when every cell passes. *)
Lemma check_cells_pass columns cells start len :
  (∀ i column cell, columns !! i = Some column → cells !! i = Some cell →
     Column_check_value column cell = Ok ()) →
  (start + len ≤ length columns)%nat → (start + len ≤ length cells)%nat →
  check_cells columns cells (seq start len) = Ok ().
Proof.
  intros Hpass. revert start.
  induction len as [|len IH]; intros start Hcolumns Hcells; simpl; [done|].
  destruct (lookup_lt_is_Some_2 columns start) as [column Hcolumn]; [lia|].
  destruct (lookup_lt_is_Some_2 cells start) as [cell Hcell]; [lia|].
  rewrite Hcolumn, Hcell, (Hpass _ _ _ Hcolumn Hcell). simpl.
  apply IH; lia.
Qed.

(** The validation loop stops at the first cell that fails, with its error. *)
Lemma check_cells_first_failure columns cells start len i column cell e :
  (start ≤ i < start + len)%nat →
  columns !! i = Some column → cells !! i = Some cell →
  Column_check_value column cell = Raise e →
  (∀ j column' cell', (j < i)%nat →
     columns !! j = Some column' → cells !! j = Some cell' →
     Column_check_value column' cell' = Ok ()) →
  check_cells columns cells (seq start len) = Raise e.
Proof.
  intros Hi Hcolumn Hcell Hfail Hbefore. revert start Hi.
  induction len as [|len IH]; intros start Hi; simpl; [lia|].
  destruct (decide (start = i)) as [->|Hne].
  - by rewrite Hcolumn, Hcell, Hfail.
  - destruct (lookup_lt_is_Some_2 columns start) as [column' Hcolumn'].
    { apply lookup_lt_Some in Hcolumn. lia. }
    destruct (lookup_lt_is_Some_2 cells start) as [cell' Hcell'].
    { apply lookup_lt_Some in Hcell. lia. }
    rewrite Hcolumn', Hcell', (Hbefore start _ _ ltac:(lia) Hcolumn' Hcell').
    simpl. apply IH. lia.
Qed.

(** [add_row] either leaves the table as it was or files the new row under
    the counter and advances the counter. *)
Lemma Table_add_row_cases self cells :
  (∃ e, Table_add_row self cells = (Raise e, self)) ∨
  Table_add_row self cells =
    (Ok (Row.mk (Table._next_id self) cells),
     Table.mk (Table.id self) (Table.name self) (Table.columns self)
       (PyDict.set (Table._rows self) (Table._next_id self)
          (Row.mk (Table._next_id self) cells))
       (Table._next_id self + 1)%nat) ∧
  length cells = length (Table.columns self).
Proof.
  unfold Table_add_row.
  destruct (length cells =? length (Table.columns self))%nat eqn:Hlen; simpl;
    [|eauto].
  apply Nat.eqb_eq in Hlen.
  destruct (check_cells _ _ _); eauto.
Qed.

(** C7. [add_row] raises the row-length error whenever the number of cells
    differs from the number of columns, whatever the cells hold.
    Otherwise the cells are checked against their columns in order: the
    first cell that fails ends the call with that column's [check_value]
    error and the table is as before; when every cell passes, the returned
    row has the current counter as id and the given cells, it is stored
    under that id, and the counter is one more. *)
Theorem Table_add_row_spec (self : Table.t) (cells : list Value) :
  (length cells ≠ length (Table.columns self) →
     Table_add_row self cells = (Raise (ValueError RowLengthMismatch), self)) ∧
  (length cells = length (Table.columns self) →
     ∀ i column cell e,
       Table.columns self !! i = Some column → cells !! i = Some cell →
       Column_check_value column cell = Raise e →
       (∀ j column' cell', (j < i)%nat →
          Table.columns self !! j = Some column' → cells !! j = Some cell' →
          Column_check_value column' cell' = Ok ()) →
       Table_add_row self cells = (Raise e, self)) ∧
  (length cells = length (Table.columns self) →
     (∀ i column cell,
        Table.columns self !! i = Some column → cells !! i = Some cell →
        Column_check_value column cell = Ok ()) →
     ∃ self',
       Table_add_row self cells =
         (Ok (Row.mk (Table._next_id self) cells), self') ∧
       PyDict.get (Table._rows self') (Table._next_id self) =
         Some (Row.mk (Table._next_id self) cells) ∧
       (∀ id, id ≠ Table._next_id self →
          PyDict.get (Table._rows self') id = PyDict.get (Table._rows self) id) ∧
       Table._next_id self' = (Table._next_id self + 1)%nat ∧
       Table.columns self' = Table.columns self).
Proof.
  unfold Table_add_row. split_and!.
  - intros Hlen. apply Nat.eqb_neq in Hlen. by rewrite Hlen.
  - intros Hlen i column cell e Hcolumn Hcell Hfail Hbefore.
    rewrite Hlen, Nat.eqb_refl. simpl.
    rewrite (check_cells_first_failure _ _ 0 _ i column cell e); try done.
    apply lookup_lt_Some in Hcolumn. lia.
  - intros Hlen Hpass. rewrite Hlen, Nat.eqb_refl. simpl.
    rewrite check_cells_pass; [|done|simpl; lia..].
    eexists. split; [done|]. simpl. split_and!; try done.
    + apply get_set_eq.
    + intros id Hid. by apply get_set_ne.
Qed.

Lemma Table_add_row_spec_witness :
  Table_add_row left_empty [VInt 1] =
    (Raise (ValueError RowLengthMismatch), left_empty) ∧
  Table_add_row left_empty [VStr "x"; VInt 3] =
    (Raise (ValueError (TypeMismatch number (VStr "x"))), left_empty) ∧
  ∃ self',
    Table_add_row left_empty [VInt 1; VStr "a"] =
      (Ok (Row.mk 0 [VInt 1; VStr "a"]), self') ∧
    PyDict.get (Table._rows self') 0%nat = Some (Row.mk 0 [VInt 1; VStr "a"]) ∧
    Table._next_id self' = 1%nat.
Proof.
  split_and!.
  - apply (proj1 (Table_add_row_spec left_empty [VInt 1])). simpl. lia.
  - apply (proj1 (proj2 (Table_add_row_spec left_empty [VStr "x"; VInt 3]))
             eq_refl 0%nat number (VStr "x")); try done.
    intros j ? ? Hj. lia.
  - destruct (proj2 (proj2 (Table_add_row_spec left_empty [VInt 1; VStr "a"]))
                eq_refl) as (self' & Hrun & Hget & _ & Hnext & _).
    + intros [|[|i]] column cell; simpl; intros [= <-] [= <-]; done.
    + exists self'. split_and!; done.
Defined.

(** The invariant of a table holds at creation and after every call. *)
Lemma Table_init_inv id name columns : Table_inv (Table_init id name columns).
Proof.
  unfold Table_inv, PyDict.wf, PyDict.keys; simpl. split_and!.
  - apply NoDup_nil_2.
  - intros k Hk. by apply elem_of_nil in Hk.
  - intros k row Hin. by apply elem_of_nil in Hin.
Qed.

Lemma elem_of_set {K V} `{EqDecision K} (d : list (K * V)) k v k' v' :
  (k', v') ∈ PyDict.set d k v → (k', v') = (k, v) ∨ (k', v') ∈ d.
Proof.
  induction d as [|[k0 v0] d IH]; simpl.
  - intros ->%list_elem_of_singleton. by left.
  - destruct (decide (k = k0)) as [->|Hne].
    + intros [->|Hin]%elem_of_cons; [by left | right; by right].
    + intros [->|Hin]%elem_of_cons; [right; left|].
      destruct (IH Hin) as [->|Hd]; [by left | right; by right].
Qed.

Lemma elem_of_del {K V} `{EqDecision K} (d : list (K * V)) k k' v' :
  (k', v') ∈ PyDict.del d k → (k', v') ∈ d.
Proof.
  induction d as [|[k0 v0] d IH]; simpl; [done|].
  destruct (decide (k = k0)) as [->|Hne].
  - by right.
  - intros [->|Hin]%elem_of_cons; [left | right; auto].
Qed.

Lemma Table_add_row_inv self cells :
  Table_inv self → Table_inv (Table_add_row self cells).2.
Proof.
  intros (Hwf & Hbelow & Hrows).
  destruct (Table_add_row_cases self cells) as [[e ->]|[-> Hlen]]; [done|].
  unfold Table_inv; simpl. split_and!.
  - by apply wf_set.
  - intros k. rewrite keys_set.
    destruct (PyDict.contains _ _).
    + intros Hk%Hbelow. lia.
    + intros [Hk%Hbelow| ->%list_elem_of_singleton]%elem_of_app; lia.
  - intros k row [[= -> ->]|Hin]%elem_of_set; [done|]. by apply Hrows.
Qed.

Lemma Table_remove_row_inv self id :
  Table_inv self → Table_inv (Table_remove_row self id).
Proof.
  intros (Hwf & Hbelow & Hrows). unfold Table_remove_row.
  destruct (PyDict.contains _ _); [|done].
  unfold Table_inv; simpl. split_and!.
  - by apply wf_del.
  - intros k Hk. by apply Hbelow, (keys_del_subseteq _ id).
  - intros k row Hin%elem_of_del. by apply Hrows.
Qed.

Lemma Table_store_cells_inv self row_id cells :
  length cells = length (Table.columns self) →
  Table_inv self → Table_inv (Table_store_cells self row_id cells).
Proof.
  intros Hlen (Hwf & Hbelow & Hrows). unfold Table_store_cells.
  destruct (PyDict.get _ _) as [row|] eqn:Hget; [|done].
  pose proof (get_Some_elem_of _ _ _ Hget) as Hin.
  unfold Table_inv; simpl. split_and!.
  - by apply wf_set.
  - intros k. rewrite keys_set. unfold PyDict.contains. rewrite Hget. auto.
  - intros k row' [[= -> ->]|Hin']%elem_of_set; [|by apply Hrows].
    simpl. split; [|done]. by apply (Hrows _ _ Hin).
Qed.

Lemma Table_reachable_columns t :
  Table_reachable t → Forall Column_valid (Table.columns t).
Proof.
  induction 1 as [| t cells _ IH | t id _ IH | t row_id row ? ? ? _ IH Hget _ _];
    simpl; try done.
  - by destruct (Table_add_row_cases t cells) as [[e ->]|[-> _]].
  - unfold Table_remove_row. by destruct (PyDict.contains _ _).
  - unfold Table_store_cells. by rewrite Hget.
Qed.

Lemma Table_reachable_inv t : Table_reachable t → Table_inv t.
Proof.
  induction 1 as [| | | t row_id row column_id column value _ IH Hget _ _].
  - apply Table_init_inv.
  - by apply Table_add_row_inv.
  - by apply Table_remove_row_inv.
  - apply Table_store_cells_inv; [|done].
    rewrite length_insert.
    destruct IH as (_ & _ & Hrows).
    by apply (Hrows row_id), get_Some_elem_of.
Qed.

(** ** Table difference *)

(** Over valid columns the type comparison raises nothing, and says whether
    some pair of views differs. *)
Lemma any_type_differs_valid ls rs :
  Forall Column_valid ls → Forall Column_valid rs →
  any_type_differs (zip ls rs) =
    Ok (existsb (λ p, negb (Column_eq (signature p.1 "") (signature p.2 "")))
          (zip ls rs)).
Proof.
  intros Hls. revert rs.
  induction Hls as [|l ls Hl Hls IH]; intros rs Hrs; simpl; [done|].
  destruct Hrs as [|r rs Hr Hrs]; simpl; [done|].
  rewrite (Column_get_type_valid l "" Hl), (Column_get_type_valid r "" Hr).
  simpl. destruct (Column_eq _ _); simpl; [by apply IH | done].
Qed.

Lemma difference_columns_valid ls rs :
  Forall Column_valid ls →
  difference_columns (zip ls rs) =
    Ok ((λ p, signature p.1 (difference_name p.1 p.2)) <$> zip ls rs).
Proof.
  intros Hls. revert rs.
  induction Hls as [|l ls Hl Hls IH]; intros rs; simpl; [done|].
  destruct rs as [|r rs]; simpl; [done|].
  by rewrite (Column_get_type_valid l _ Hl), IH.
Qed.

(** Some pair of views differs exactly when the views at some position
    differ. *)
Lemma existsb_signature_differs ls rs :
  existsb (λ p, negb (Column_eq (signature p.1 "") (signature p.2 "")))
    (zip ls rs) = true ↔
  ∃ i l r, ls !! i = Some l ∧ rs !! i = Some r ∧
           signature l "" ≠ signature r "".
Proof.
  rewrite existsb_exists. split.
  - intros ([l r] & Hin & Hne). simpl in Hne.
    apply list_elem_of_In, list_elem_of_lookup in Hin as [i Hi].
    apply lookup_zip_with_Some in Hi as (l' & r' & [= <- <-] & Hl & Hr).
    exists i, l, r. split_and!; [done..|].
    intros Heq%Column_eq_eq. by rewrite Heq in Hne.
  - intros (i & l & r & Hl & Hr & Hne). exists (l, r). split.
    + apply list_elem_of_In, list_elem_of_lookup. exists i.
      apply lookup_zip_with_Some. eauto.
    + simpl. destruct (Column_eq _ _) eqn:Heq; [|done].
      by apply Column_eq_eq in Heq.
Qed.

(** The loop that collects the rows keeps, in order, the left rows that the
    right table does not contain. *)
Lemma difference_rows_filter right items rows :
  PyDict.wf (rows ++ items) →
  difference_rows right items rows =
    rows ++ filter (λ item, Table_contains_row right item.2 = false) items.
Proof.
  revert rows. induction items as [|[id row] items IH]; intros rows Hwf; simpl.
  - by rewrite app_nil_r.
  - assert (PyDict.get rows id = None) as Hfresh.
    { apply get_None_keys. unfold PyDict.wf, PyDict.keys in *.
      rewrite fmap_app in Hwf. apply NoDup_app in Hwf as (_ & Hdisj & _).
      intros Hin. apply (Hdisj id Hin). simpl. left. }
    assert (PyDict.set rows id row = rows ++ [(id, row)]) as Hset.
    { clear -Hfresh. induction rows as [|[k v] rows IH]; simpl; [done|].
      simpl in Hfresh. destruct (decide (id = k)); [done|].
      by rewrite IH. }
    destruct (Table_contains_row right row) eqn:Hcontains; simpl.
    + rewrite filter_cons_False by (simpl; congruence). apply IH.
      unfold PyDict.wf, PyDict.keys in *. rewrite fmap_app in *. simpl in Hwf.
      apply NoDup_app in Hwf as (Hrows & Hdisj & [_ Hitems]%NoDup_cons).
      apply NoDup_app. split_and!; [done| |done].
      intros x Hx Hin. apply (Hdisj x Hx). by right.
    + rewrite filter_cons_True by done. rewrite Hset, IH.
      * by rewrite <- app_assoc.
      * by rewrite <- app_assoc.
Qed.

Lemma get_filter {K V} `{EqDecision K} (P : K * V → Prop)
    `{∀ x, Decision (P x)} (d : list (K * V)) k v :
  PyDict.wf d →
  PyDict.get (filter P d) k = Some v ↔ PyDict.get d k = Some v ∧ P (k, v).
Proof.
  intros Hwf. split.
  - intros Hget%get_Some_elem_of. apply list_elem_of_filter in Hget as [HP Hin].
    split; [by apply elem_of_get | done].
  - intros [Hget%get_Some_elem_of HP]. apply elem_of_get.
    + unfold PyDict.wf, PyDict.keys in *.
      apply (sublist_NoDup _ d.*1); [done|]. apply fmap_sublist, sublist_filter.
    + by apply list_elem_of_filter.
Qed.

(** [contains_row] finds a row of the table equal, by [==] on the cell
    lists, to the given one. *)
Lemma Table_contains_row_true self row :
  PyDict.wf (Table._rows self) →
  Table_contains_row self row = true ↔
  ∃ id' row', PyDict.get (Table._rows self) id' = Some row' ∧
              list_eq (Row.cells row) (Row.cells row') = true.
Proof.
  intros Hwf. unfold Table_contains_row, PyDict.values.
  rewrite existsb_exists. split.
  - intros (row' & Hin & Heq).
    apply list_elem_of_In, list_elem_of_fmap in Hin as ([id' found] & -> & Hin).
    exists id', found. split; [by apply elem_of_get | done].
  - intros (id' & row' & Hget%get_Some_elem_of & Heq). exists row'.
    split; [|done].
    apply list_elem_of_In, list_elem_of_fmap. by exists (id', row').
Qed.

(** X23. On the code's own [get_type] views: the difference of two tables
    over constructed columns raises the column-count error when the
    numbers of columns differ; otherwise it raises the column-type error
    when at some position the two columns' [get_type()] views are unequal;
    otherwise it succeeds, with one column per position that is the
    [get_type] view of the left and of the right column alike, named by the
    common name when both names agree and by ['<left>' / '<right>']
    otherwise. *)
Theorem Table_sub_schema (left right : Table.t) :
  Forall Column_valid (Table.columns left) →
  Forall Column_valid (Table.columns right) →
  (length (Table.columns left) ≠ length (Table.columns right) →
     Table_sub left right = Raise (ValueError IncompatibleColumnCount)) ∧
  (length (Table.columns left) = length (Table.columns right) →
     (∃ i l r, Table.columns left !! i = Some l ∧
               Table.columns right !! i = Some r ∧
               Column_get_type l "" ≠ Column_get_type r "") →
     Table_sub left right = Raise (ValueError IncompatibleColumnTypes)) ∧
  (length (Table.columns left) = length (Table.columns right) →
     (∀ i l r, Table.columns left !! i = Some l →
               Table.columns right !! i = Some r →
               Column_get_type l "" = Column_get_type r "") →
     ∃ d, Table_sub left right = Ok d ∧
       length (TableDifference.columns d) = length (Table.columns left) ∧
       ∀ i l r, Table.columns left !! i = Some l →
                Table.columns right !! i = Some r →
         ∃ column, TableDifference.columns d !! i = Some column ∧
           Column_get_type l (Column.name column) = Ok column ∧
           Column_get_type r (Column.name column) = Ok column ∧
           (Column.name l = Column.name r →
              Column.name column = Column.name l) ∧
           (Column.name l ≠ Column.name r →
              Column.name column =
                "'" +:+ Column.name l +:+ "' / '" +:+ Column.name r +:+ "'")).
Proof.
  intros Hleft Hright. unfold Table_sub. split_and!.
  - intros Hlen. apply Nat.eqb_neq in Hlen. by rewrite Hlen.
  - intros Hlen (i & l & r & Hl & Hr & Hne).
    rewrite Hlen, Nat.eqb_refl. simpl.
    rewrite (any_type_differs_valid _ _ Hleft Hright). simpl.
    assert (existsb (λ p, negb (Column_eq (signature p.1 "") (signature p.2 "")))
              (zip (Table.columns left) (Table.columns right)) = true) as ->;
      [|done].
    apply existsb_signature_differs. exists i, l, r. split_and!; [done..|].
    intros Heq. apply Hne.
    rewrite !Column_get_type_valid, Heq; [done|..].
    + by apply (Forall_lookup_1 _ _ _ _ Hright Hr).
    + by apply (Forall_lookup_1 _ _ _ _ Hleft Hl).
  - intros Hlen Hsame. rewrite Hlen, Nat.eqb_refl. simpl.
    rewrite (any_type_differs_valid _ _ Hleft Hright). simpl.
    assert (existsb (λ p, negb (Column_eq (signature p.1 "") (signature p.2 "")))
              (zip (Table.columns left) (Table.columns right)) = false) as ->.
    { apply not_true_is_false.
      intros (i & l & r & Hl & Hr & Hne)%existsb_signature_differs.
      specialize (Hsame i l r Hl Hr).
      rewrite !Column_get_type_valid in Hsame.
      - apply Hne. congruence.
      - by apply (Forall_lookup_1 _ _ _ _ Hright Hr).
      - by apply (Forall_lookup_1 _ _ _ _ Hleft Hl). }
    rewrite (difference_columns_valid _ _ Hleft). simpl.
    eexists. split; [done|]. simpl. split.
    { rewrite length_fmap, length_zip_with. lia. }
    intros i l r Hl Hr.
    pose proof (Forall_lookup_1 _ _ _ _ Hleft Hl) as Hvl.
    pose proof (Forall_lookup_1 _ _ _ _ Hright Hr) as Hvr.
    exists (signature l (difference_name l r)). split_and!.
    + rewrite list_lookup_fmap.
      assert (zip (Table.columns left) (Table.columns right) !! i = Some (l, r))
        as ->; [|done].
      apply lookup_zip_with_Some. eauto.
    + by apply Column_get_type_valid.
    + rewrite (Column_get_type_valid r _ Hvr). f_equal.
      specialize (Hsame i l r Hl Hr).
      rewrite !Column_get_type_valid in Hsame by done.
      assert (signature l "" = signature r "") as Hsig by congruence.
      apply signature_eq_iff in Hsig as (Hty & Hmin & Hmax).
      unfold signature. by rewrite Hty, Hmin, Hmax.
    + intros Hname. simpl. unfold difference_name.
      by rewrite bool_decide_eq_true_2.
    + intros Hname. simpl. unfold difference_name.
      by rewrite bool_decide_eq_false_2.
Qed.

Ltac columns_valid :=
  repeat first [ apply Forall_nil_2 | apply Forall_cons_2; [reflexivity|] ].

Lemma Table_sub_schema_witness :
  Table_sub left_table integer_prices =
    Raise (ValueError IncompatibleColumnCount) ∧
  Table_sub integer_prices numbers =
    Raise (ValueError IncompatibleColumnTypes) ∧
  ∃ d column,
    Table_sub integer_prices costs = Ok d ∧
    TableDifference.columns d !! 0%nat = Some column ∧
    Column.name column = "'price' / 'cost'" ∧
    Column.type column = Type_.Real.
Proof.
  split_and!.
  - apply (Table_sub_schema left_table integer_prices); [columns_valid..|].
    simpl. lia.
  - apply (Table_sub_schema integer_prices numbers); [columns_valid..|done|].
    exists 0%nat, price, number. split_and!; done.
  - destruct (proj2 (proj2 (Table_sub_schema integer_prices costs
        ltac:(columns_valid) ltac:(columns_valid))) eq_refl)
      as (d & Hd & _ & Hcolumns).
    + intros [|i] l r; simpl; intros [= <-] [= <-]; done.
    + destruct (Hcolumns 0%nat price cost eq_refl eq_refl)
        as (column & Hcolumn & Hview & _ & _ & Hname).
      exists d, column. split_and!; [done..| |].
      * by apply Hname.
      * rewrite (Column_get_type_valid price _ eq_refl) in Hview.
        by injection Hview as <-.
Defined.

(** ** Equality of cells *)

Lemma list_eq_Forall2 xs ys :
  list_eq xs ys = true ↔ Forall2 (λ x y, Value_eq x y = true) xs ys.
Proof.
  revert ys. induction xs as [|x xs IH]; intros [|y ys]; simpl.
  - split; [constructor | done].
  - split; [done | inversion 1].
  - split; [done | inversion 1].
  - rewrite andb_true_iff, IH. split.
    + intros [? ?]. by constructor.
    + inversion 1; by subst.
Qed.

Lemma Decimal_eq_refl d : Decimal.eq d d = true.
Proof. unfold Decimal.eq. by rewrite Z.eqb_refl. Qed.

Lemma Value_eq_refl x : Value_eq x x = true.
Proof.
  destruct x as [n|d|s|c]; simpl.
  - apply Z.eqb_refl.
  - apply Decimal_eq_refl.
  - by apply bool_decide_eq_true.
  - unfold Color_eq. by rewrite !Z.eqb_refl.
Qed.

(** A row always matches one with the very same cells. *)
Lemma list_eq_refl xs : list_eq xs xs = true.
Proof. induction xs; simpl; [done|]. by rewrite Value_eq_refl. Qed.

(** An [int] and a [Decimal] are equal when they denote the same number. *)
Lemma Value_eq_int_decimal n coefficient exponent :
  0 <= exponent →
  Value_eq (VInt n) (VDecimal (Decimal.mk coefficient exponent)) = true ↔
  n = coefficient * 10 ^ exponent.
Proof.
  intros Hexp. unfold Value_eq, Decimal.eq, Decimal.of_int.
  cbn [Decimal.coefficient Decimal.exponent].
  rewrite Z.min_l by lia. rewrite !Z.sub_0_r, Z.pow_0_r, Z.mul_1_r.
  apply Z.eqb_eq.
Qed.

(** Values other than numbers are equal only to themselves. *)
Lemma Value_eq_exact x y :
  (∀ d, x ≠ VDecimal d) → (∀ d, y ≠ VDecimal d) →
  Value_eq x y = true ↔ x = y.
Proof.
  intros Hx Hy. destruct x as [m|d|s|c], y as [n|d'|s'|c']; simpl;
    try (by destruct (Hx d)); try (by destruct (Hy d'));
    try (split; [discriminate | congruence]).
  - rewrite Z.eqb_eq. split; congruence.
  - rewrite bool_decide_eq_true. split; congruence.
  - unfold Color_eq. rewrite !andb_true_iff, !Z.eqb_eq.
    destruct c, c'; simpl. split; [intros [[-> ->] ->]; done|].
    intros [= -> -> ->]. done.
Qed.

(** C4, evaluated on the code.  The columns [warm] and [cold] have the
    same type and different green and blue ranges, so their type
    signatures (type and six bounds) are unequal; yet the difference of
    [warm_table] and [cold_table] raises no column-type error: it
    succeeds, and its column has the red range 0..10 on all three
    channels, the green and blue ranges of neither operand. *)
Theorem Table_sub_accepts_unequal_ranges :
  Forall Column_valid (Table.columns warm_table) ∧
  Forall Column_valid (Table.columns cold_table) ∧
  length (Table.columns warm_table) = length (Table.columns cold_table) ∧
  Column.type warm = Column.type cold ∧
  bounds warm ≠ bounds cold ∧
  Table_sub warm_table cold_table =
    Ok (TableDifference.mk warm_table cold_table
          [Column.mk "'warm' / 'cold'" Type_.ColorInvl
             (Some 0) (Some 10) (Some 0) (Some 10) (Some 0) (Some 10)]
          []).
Proof. split_and!; [columns_valid..|done|done|done|reflexivity]. Qed.

Lemma Value_eq_int_decimal_fraction n coefficient exponent :
  exponent < 0 →
  Value_eq (VInt n) (VDecimal (Decimal.mk coefficient exponent)) = true ↔
  n * 10 ^ (- exponent) = coefficient.
Proof.
  intros Hexp. unfold Value_eq, Decimal.eq, Decimal.of_int.
  cbn [Decimal.coefficient Decimal.exponent].
  rewrite Z.min_r by lia. rewrite Z.sub_diag, Z.pow_0_r, Z.mul_1_r, Z.sub_0_l.
  apply Z.eqb_eq.
Qed.

(** ** Rows of the difference *)

Lemma rows_of_Table_sub left right d :
  Table_sub left right = Ok d →
  TableDifference.rows d = difference_rows right (Table._rows left) [].
Proof.
  unfold Table_sub. destruct (negb _); [done|].
  destruct (any_type_differs _) as [[]|]; simpl; try done.
  destruct (difference_columns _); simpl; [|done].
  by intros [= <-].
Qed.

(** C2, as the code has it.  The rows of the difference of two compatible
    tables are exactly the rows of the left table for which the right table
    holds no row whose cell list is equal under [==], element by element:
    numbers compare by value (the integer 1 matches the decimal 1.0),
    strings and colours by content.  Each left row is kept or dropped on
    its own, under its own id and in the left table's order, so equal left
    rows are all dropped when one right row matches them and all kept
    when none does. *)
Theorem Table_sub_rows (left right : Table.t) (d : TableDifference.t) :
  PyDict.wf (Table._rows left) → PyDict.wf (Table._rows right) →
  Table_sub left right = Ok d →
  (∀ id row,
     PyDict.get (TableDifference.rows d) id = Some row ↔
     PyDict.get (Table._rows left) id = Some row ∧
     ¬ ∃ id' row', PyDict.get (Table._rows right) id' = Some row' ∧
                   list_eq (Row.cells row) (Row.cells row') = true) ∧
  TableDifference.rows d `sublist_of` Table._rows left.
Proof.
  intros Hleft Hright Hsub. rewrite (rows_of_Table_sub _ _ _ Hsub).
  rewrite difference_rows_filter by done. simpl. split.
  - intros id row. rewrite get_filter by done. simpl.
    rewrite <- (Table_contains_row_true right row Hright).
    by rewrite not_true_iff_false.
  - apply sublist_filter.
Qed.

Lemma Table_sub_rows_witness :
  ∃ d, Table_sub left_table right_table = Ok d ∧
    PyDict.get (TableDifference.rows d) 1%nat =
      Some (Row.mk 1 [VInt 2; VStr "b"]) ∧
    PyDict.get (TableDifference.rows d) 0%nat = None ∧
    PyDict.get (TableDifference.rows d) 2%nat = None.
Proof.
  destruct (Table_sub left_table right_table) as [d|] eqn:Hsub; [|done].
  exists d. split; [done|].
  assert (PyDict.wf (Table._rows left_table)) as Hleft.
  { by apply (bool_decide_unpack _). }
  assert (PyDict.wf (Table._rows right_table)) as Hright.
  { by apply (bool_decide_unpack _). }
  destruct (Table_sub_rows left_table right_table d Hleft Hright Hsub)
    as [Hrows _].
  assert (∀ id row, PyDict.get (Table._rows right_table) id = Some row →
                    row = Row.mk 0 [VInt 1; VStr "a"]) as Honly.
  { intros [|id] row; simpl; [by intros [= <-] | done]. }
  split_and!.
  - apply Hrows. split; [done|].
    intros (id' & row' & Hget & Heq). by rewrite (Honly _ _ Hget) in Heq.
  - destruct (PyDict.get (TableDifference.rows d) 0%nat) as [row|] eqn:Hget;
      [|done].
    apply Hrows in Hget as [[= <-] Hnone]. destruct Hnone.
    by exists 0%nat, (Row.mk 0 [VInt 1; VStr "a"]).
  - destruct (PyDict.get (TableDifference.rows d) 2%nat) as [row|] eqn:Hget;
      [|done].
    apply Hrows in Hget as [[= <-] Hnone]. destruct Hnone.
    by exists 0%nat, (Row.mk 0 [VInt 1; VStr "a"]).
Defined.

(** C2, as stated, fails on the code.  The only row of [integer_prices] has
    the cell 1, an integer; no row of [decimal_prices] has that cell (its
    row holds the decimal 1.0); yet the difference drops the row. *)
Lemma integer_row_matches_decimal_row :
  ∃ d, Table_sub integer_prices decimal_prices = Ok d ∧
    PyDict.get (Table._rows integer_prices) 0%nat = Some (Row.mk 0 [VInt 1]) ∧
    (∀ id' row', PyDict.get (Table._rows decimal_prices) id' = Some row' →
                 Row.cells row' ≠ [VInt 1]) ∧
    PyDict.get (TableDifference.rows d) 0%nat = None.
Proof.
  eexists. split_and!; [reflexivity | done | | done].
  intros [|id'] row'; simpl; [|done]. by intros [= <-].
Qed.

(** C3, as the code has it.  With left rows [1,"a"], [2,"b"], [1,"a"] and
    the right row [1,"a"] over the columns (Integer, String), the
    difference holds the single row [2,"b"], under its id 1. *)
Theorem Table_sub_example :
  Row.cells <$> PyDict.values (Table._rows left_table) =
    [[VInt 1; VStr "a"]; [VInt 2; VStr "b"]; [VInt 1; VStr "a"]] ∧
  Row.cells <$> PyDict.values (Table._rows right_table) =
    [[VInt 1; VStr "a"]] ∧
  ∃ d, Table_sub left_table right_table = Ok d ∧
    TableDifference.rows d = [(1%nat, Row.mk 1 [VInt 2; VStr "b"])].
Proof. split_and!; [done..|]. eexists. split; reflexivity. Qed.

(** C3, as stated, fails on the code: the rows of that difference are not
    [2,"b"], [1,"a"]. *)
Lemma duplicate_row_dropped :
  ∃ d, Table_sub left_table right_table = Ok d ∧
    Row.cells <$> PyDict.values (TableDifference.rows d) ≠
      [[VInt 2; VStr "b"]; [VInt 1; VStr "a"]].
Proof. eexists. split; [reflexivity | done]. Qed.

Lemma filter_none {A} (P : A → Prop) `{∀ x, Decision (P x)} (l : list A) :
  (∀ x, x ∈ l → ¬ P x) → filter P l = [].
Proof.
  intros Hnone. apply elem_of_nil_inv.
  intros x [HP Hin]%list_elem_of_filter. by apply (Hnone x).
Qed.

Lemma filter_all {A} (P : A → Prop) `{∀ x, Decision (P x)} (l : list A) :
  (∀ x, x ∈ l → P x) → filter P l = l.
Proof.
  induction l as [|x l IH]; intros Hall; [done|].
  rewrite filter_cons_True by (apply Hall; left).
  f_equal. apply IH. intros y Hy. apply Hall. by right.
Qed.

(** C10. Two tables without columns hold only rows with the empty cell
    list, so every left row matches every right row: their difference has
    no row when the right table has at least one row, and all the rows of
    the left table when the right table has none. *)
Theorem Table_sub_no_columns (left right : Table.t) :
  Table_reachable left → Table_reachable right →
  Table.columns left = [] → Table.columns right = [] →
  (∀ id row, PyDict.get (Table._rows left) id = Some row → Row.cells row = []) ∧
  (∀ id row, PyDict.get (Table._rows right) id = Some row → Row.cells row = []) ∧
  (∀ id row id' row',
     PyDict.get (Table._rows left) id = Some row →
     PyDict.get (Table._rows right) id' = Some row' →
     list_eq (Row.cells row) (Row.cells row') = true) ∧
  ∃ d, Table_sub left right = Ok d ∧
    (Table._rows right ≠ [] → TableDifference.rows d = []) ∧
    (Table._rows right = [] → TableDifference.rows d = Table._rows left).
Proof.
  intros Hleft%Table_reachable_inv Hright%Table_reachable_inv Hlc Hrc.
  destruct Hleft as (Hlwf & _ & Hlrows), Hright as (Hrwf & _ & Hrrows).
  assert (∀ id row, (id, row) ∈ Table._rows left → Row.cells row = []) as Hl.
  { intros id row [_ Hlen]%Hlrows. rewrite Hlc in Hlen.
    by apply nil_length_inv. }
  assert (∀ id row, (id, row) ∈ Table._rows right → Row.cells row = []) as Hr.
  { intros id row [_ Hlen]%Hrrows. rewrite Hrc in Hlen.
    by apply nil_length_inv. }
  split_and!.
  - intros id row Hget%get_Some_elem_of. by apply (Hl id).
  - intros id row Hget%get_Some_elem_of. by apply (Hr id).
  - intros id row id' row' Hrow%get_Some_elem_of Hrow'%get_Some_elem_of.
    by rewrite (Hl _ _ Hrow), (Hr _ _ Hrow').
  - unfold Table_sub. rewrite Hlc, Hrc. simpl. eexists. split; [done|]. simpl.
    rewrite difference_rows_filter by done. simpl. split.
    + intros Hsome. apply filter_none.
      intros [id row] Hin. simpl. apply not_false_iff_true.
      destruct (Table._rows right) as [|[id' row'] rest] eqn:Hrows; [done|].
      unfold Table_contains_row. rewrite Hrows. simpl.
      rewrite (Hl _ _ Hin), (Hr id' row'); [done|]. left.
    + intros Hnone. apply filter_all.
      intros [id row] _. simpl. unfold Table_contains_row. by rewrite Hnone.
Qed.

Ltac table_reachable :=
  repeat first
    [ apply reach_init; columns_valid
    | apply (reach_add_row _ _)
    | apply (reach_remove_row _ _) ].

Lemma Table_sub_no_columns_witness :
  (∃ d, Table_sub two_empty_rows one_empty_row = Ok d ∧
        TableDifference.rows d = []) ∧
  (∃ d, Table_sub two_empty_rows no_rows = Ok d ∧
        TableDifference.rows d = [(0%nat, Row.mk 0 []); (1%nat, Row.mk 1 [])]).
Proof.
  split.
  - destruct (Table_sub_no_columns two_empty_rows one_empty_row)
      as (_ & _ & _ & d & Hd & Hsome & _);
      [unfold two_empty_rows, run_row_ops; table_reachable
      |unfold one_empty_row; table_reachable | done | done |].
    exists d. split; [done|]. by apply Hsome.
  - destruct (Table_sub_no_columns two_empty_rows no_rows)
      as (_ & _ & _ & d & Hd & _ & Hnone);
      [unfold two_empty_rows, run_row_ops; table_reachable
      |unfold no_rows; table_reachable | done | done |].
    exists d. split; [done|]. by apply Hnone.
Defined.

(** ** Identifiers *)

(** The ids that a run of calls hands out continue from the counter, one
    by one, and the counter ends past the last of them. *)
Lemma run_row_ops_ids ops : ∀ self,
  (run_row_ops self ops).1 =
    seq (Table._next_id self) (length (run_row_ops self ops).1) ∧
  Table._next_id (run_row_ops self ops).2 =
    (Table._next_id self + length (run_row_ops self ops).1)%nat.
Proof.
  induction ops as [|[cells|id] ops IH]; intros self; cbn [run_row_ops].
  - simpl. split; [done | lia].
  - destruct (Table_add_row_cases self cells) as [[e ->]|[-> _]];
      cbn [fst snd].
    + apply IH.
    + match goal with
      | |- context [run_row_ops ?t ops] => destruct (IH t) as [Hids Hnext]
      end.
      cbn [Table._next_id Row.id] in *. split.
      * rewrite Hids at 1. simpl. do 2 f_equal. lia.
      * rewrite Hnext. simpl. lia.
  - destruct (IH (Table_remove_row self id)) as [Hids Hnext].
    assert (Table._next_id (Table_remove_row self id) = Table._next_id self)
      as Hsame.
    { unfold Table_remove_row. by destruct (PyDict.contains _ _). }
    by rewrite Hsame in Hids, Hnext.
Qed.

Lemma run_table_ops_ids ops : ∀ self,
  (run_table_ops self ops).1 =
    seq (Database._next_id self) (length (run_table_ops self ops).1) ∧
  Database._next_id (run_table_ops self ops).2 =
    (Database._next_id self + length (run_table_ops self ops).1)%nat.
Proof.
  induction ops as [|[name columns|id] ops IH]; intros self;
    cbn [run_table_ops].
  - simpl. split; [done | lia].
  - cbn [fst snd Database_add_table Table_init Table.id].
    match goal with
    | |- context [run_table_ops ?t ops] => destruct (IH t) as [Hids Hnext]
    end.
    cbn [Database._next_id] in *. split.
    + rewrite Hids at 1. simpl. do 2 f_equal. lia.
    + rewrite Hnext. simpl. lia.
  - destruct (IH (Database_remove_table self id)) as [Hids Hnext].
    assert (Database._next_id (Database_remove_table self id) =
            Database._next_id self) as Hsame.
    { unfold Database_remove_table. by destruct (PyDict.contains _ _). }
    by rewrite Hsame in Hids, Hnext.
Qed.

(** C8. Row ids within a table, and table ids within a database, are the
    natural numbers handed out from 0 upwards, one per successful addition,
    whatever was removed in between: no id comes back.  In particular,
    after adding three rows, removing the second and adding a fourth, the
    ids handed out are 0, 1, 2, 3 and no row has id 1; likewise for the
    tables of a database. *)
Theorem ids_never_reused :
  (∀ id name columns ops,
     (run_row_ops (Table_init id name columns) ops).1 =
       seq 0 (length (run_row_ops (Table_init id name columns) ops).1)) ∧
  (∀ name ops,
     (run_table_ops (Database_init name) ops).1 =
       seq 0 (length (run_table_ops (Database_init name) ops).1)) ∧
  (∀ id name columns c1 c2 c3 c4 ids t,
     run_row_ops (Table_init id name columns)
       [add_row_op c1; add_row_op c2; add_row_op c3; remove_row_op 1;
        add_row_op c4] = (ids, t) →
     length ids = 4%nat →
     ids = [0; 1; 2; 3]%nat ∧
     PyDict.keys (Table._rows t) = [0; 2; 3]%nat ∧
     PyDict.get (Table._rows t) 1%nat = None) ∧
  (∀ name n1 c1 n2 c2 n3 c3 n4 c4,
     ∃ db,
       run_table_ops (Database_init name)
         [add_table_op n1 c1; add_table_op n2 c2; add_table_op n3 c3;
          remove_table_op 1; add_table_op n4 c4] = ([0; 1; 2; 3]%nat, db) ∧
       PyDict.keys (Database.tables db) = [0; 2; 3]%nat ∧
       PyDict.get (Database.tables db) 1%nat = None).
Proof.
  split_and!.
  - intros id name columns ops.
    apply (run_row_ops_ids ops (Table_init id name columns)).
  - intros name ops. apply (run_table_ops_ids ops (Database_init name)).
  - intros id name columns c1 c2 c3 c4 ids t. cbn [run_row_ops].
    destruct (Table_add_row_cases (Table_init id name columns) c1)
      as [[e1 ->]|[-> _]]; cbn [fst snd];
    match goal with
    | |- context [Table_add_row ?s c2] =>
        destruct (Table_add_row_cases s c2) as [[e2 ->]|[-> _]]
    end; cbn [fst snd];
    match goal with
    | |- context [Table_add_row ?s c3] =>
        destruct (Table_add_row_cases s c3) as [[e3 ->]|[-> _]]
    end; cbn [fst snd];
    match goal with
    | |- context [Table_add_row ?s c4] =>
        destruct (Table_add_row_cases s c4) as [[e4 ->]|[-> _]]
    end; cbn [fst snd]; intros [= <- <-]; simpl; try discriminate.
    intros _. done.
  - intros. eexists. split; [reflexivity|]. done.
Qed.

Lemma ids_never_reused_witness :
  ∃ t,
    run_row_ops numbers
      [add_row_op [VInt 7]; add_row_op [VInt 8]; add_row_op [VInt 9];
       remove_row_op 1; add_row_op [VInt 7]] = ([0; 1; 2; 3]%nat, t) ∧
    PyDict.keys (Table._rows t) = [0; 2; 3]%nat ∧
    PyDict.get (Table._rows t) 1%nat = None.
Proof.
  eexists. split; [reflexivity|].
  refine (proj2 (proj1 (proj2 (proj2 ids_never_reused)) 3%nat "numbers" [number]
            [VInt 7] [VInt 8] [VInt 9] [VInt 7] _ _ eq_refl eq_refl)).
Defined.

(** ** Cell update *)

Lemma get_database_Ok databases database_name database :
  get_database databases database_name = Ok database ↔
  PyDict.get databases database_name = Some database.
Proof.
  unfold get_database. destruct (PyDict.get _ _); split; congruence.
Qed.

Lemma get_table_Ok databases database_name table_id table :
  get_table databases database_name table_id = Ok table ↔
  ∃ database, PyDict.get databases database_name = Some database ∧
              PyDict.get (Database.tables database) table_id = Some table.
Proof.
  unfold get_table, get_database.
  destruct (PyDict.get databases _) as [database|]; simpl.
  - destruct (PyDict.get (Database.tables _) _) as [table'|] eqn:Hget.
    + split; [intros [= <-]; eauto | intros (? & [= <-] & ?); congruence].
    + split; [done | intros (? & [= <-] & ?); congruence].
  - split; [done | by intros (? & ? & _)].
Qed.

Lemma get_row_Ok databases database_name table_id row_id row :
  get_row databases database_name table_id row_id = Ok row ↔
  ∃ table, get_table databases database_name table_id = Ok table ∧
           PyDict.get (Table._rows table) row_id = Some row.
Proof.
  unfold get_row.
  destruct (get_table _ _ _) as [table|]; simpl.
  - destruct (PyDict.get (Table._rows _) _) as [row'|] eqn:Hget.
    + split; [intros [= <-]; eauto | intros (? & [= <-] & ?); congruence].
    + split; [done | intros (? & [= <-] & ?); congruence].
  - split; [done | by intros (? & ? & _)].
Qed.

(** After the assignment the registry holds the row with the new cells. *)
Lemma get_row_store_cells databases database_name table_id row_id row cells :
  get_row databases database_name table_id row_id = Ok row →
  get_row (store_cells databases database_name table_id row_id cells)
    database_name table_id row_id = Ok (Row.mk (Row.id row) cells).
Proof.
  intros (table & (database & Hdb & Htable)%get_table_Ok & Hrow)%get_row_Ok.
  apply get_row_Ok. eexists. split.
  - apply get_table_Ok. eexists. split.
    + unfold store_cells. rewrite Hdb. apply get_set_eq.
    + unfold Database_store_cells. rewrite Htable. simpl. apply get_set_eq.
  - unfold Table_store_cells. rewrite Hrow. simpl. apply get_set_eq.
Qed.

(** C9. For an existing row and a column index within the table's columns,
    an update whose value fails [check_value] is answered with the type
    mismatch (status 400) and the registry, hence the row and each of its
    cells, is as before; when the value passes, the cell at that index is
    overwritten and the stored row has the new value there and its other
    cells unchanged. *)
Theorem update_cell_value_validation (databases : Databases)
    (database_name : string) (table_id row_id column_id : nat)
    (value : Value) (table : Table.t) (row : Row.t) (column : Column.t) :
  get_table databases database_name table_id = Ok table →
  get_row databases database_name table_id row_id = Ok row →
  Table.columns table !! column_id = Some column →
  Column_valid column →
  (Column_check_value column value ≠ Ok () →
     update_cell_value databases database_name table_id row_id column_id value =
       (Raise (HTTPException 400 (ErrorText (TypeMismatch column value))),
        databases)) ∧
  (Column_check_value column value = Ok () →
     (column_id < length (Row.cells row))%nat →
     ∃ databases',
       update_cell_value databases database_name table_id row_id column_id
         value =
         (Ok (Row.mk (Row.id row) (<[column_id := value]> (Row.cells row))),
          databases') ∧
       get_row databases' database_name table_id row_id =
         Ok (Row.mk (Row.id row) (<[column_id := value]> (Row.cells row))) ∧
       <[column_id := value]> (Row.cells row) !! column_id = Some value ∧
       ∀ j, j ≠ column_id →
         <[column_id := value]> (Row.cells row) !! j = Row.cells row !! j).
Proof.
  intros Htable Hrow Hcolumn Hvalid. unfold update_cell_value.
  rewrite Htable, Hrow.
  assert ((length (Table.columns table) <=? column_id)%nat = false) as ->.
  { apply Nat.leb_gt. by apply lookup_lt_Some in Hcolumn. }
  rewrite Hcolumn. split.
  - intros Hfail.
    destruct (Column_check_value_cases column value Hvalid) as [Hok| ->];
      [done|]. done.
  - intros -> Hcell.
    assert ((column_id <? length (Row.cells row))%nat = true) as ->.
    { by apply Nat.ltb_lt. }
    eexists. split; [done|]. split_and!.
    + by apply get_row_store_cells.
    + by apply list_lookup_insert_eq.
    + intros j Hj. by apply list_lookup_insert_ne.
Qed.

Lemma update_cell_value_validation_witness :
  update_cell_value registry "shop" 1 0 0 (VStr "one") =
    (Raise (HTTPException 400
              (ErrorText (TypeMismatch number (VStr "one")))), registry) ∧
  ∃ databases',
    update_cell_value registry "shop" 1 0 1 (VStr "z") =
      (Ok (Row.mk 0 [VInt 1; VStr "z"]), databases') ∧
    get_row databases' "shop" 1 0 = Ok (Row.mk 0 [VInt 1; VStr "z"]).
Proof.
  split.
  - apply (update_cell_value_validation registry "shop" 1 0 0 (VStr "one")
             right_table (Row.mk 0 [VInt 1; VStr "a"]) number); done.
  - destruct (proj2 (update_cell_value_validation registry "shop" 1 0 1
                       (VStr "z") right_table (Row.mk 0 [VInt 1; VStr "a"])
                       label eq_refl eq_refl eq_refl eq_refl) eq_refl)
      as (databases' & Hupdate & Hstored & _).
    + simpl. lia.
    + exists databases'. split; done.
Defined.

(** ** More on dictionaries *)

Section dict_more.
Context {K V : Type} `{EqDecision K}.
Implicit Types (d : list (K * V)) (k : K) (v : V).

Lemma set_fresh d k v :
  PyDict.get d k = None → PyDict.set d k v = d ++ [(k, v)].
Proof.
  induction d as [|[k' v'] d IH]; csimpl; [done|].
  destruct (decide (k = k')); [done|]. intros Hget. by rewrite IH.
Qed.

Lemma set_same d k v : PyDict.get d k = Some v → PyDict.set d k v = d.
Proof.
  induction d as [|[k' v'] d IH]; csimpl; [done|].
  destruct (decide (k = k')) as [->|Hne].
  - by intros [= ->].
  - intros Hget. by rewrite IH.
Qed.

Lemma del_absent d k : PyDict.get d k = None → PyDict.del d k = d.
Proof.
  induction d as [|[k' v'] d IH]; csimpl; [done|].
  destruct (decide (k = k')); [done|]. intros Hget. by rewrite IH.
Qed.

Lemma del_set_fresh d k v :
  PyDict.get d k = None → PyDict.del (PyDict.set d k v) k = d.
Proof.
  induction d as [|[k' v'] d IH]; csimpl.
  - by rewrite decide_True.
  - destruct (decide (k = k')) as [->|Hne]; [done|].
    intros Hget. csimpl. rewrite decide_False by done. by rewrite IH.
Qed.

Lemma keys_del d k :
  PyDict.wf d → PyDict.keys (PyDict.del d k) = filter (λ k', k' ≠ k) (PyDict.keys d).
Proof.
  unfold PyDict.wf, PyDict.keys.
  induction d as [|[k0 v0] d IH]; csimpl; [done|].
  intros [Hk0 Hd]%NoDup_cons.
  destruct (decide (k = k0)) as [->|Hk]; csimpl.
  - rewrite filter_cons_False by (intros Hne; by apply Hne).
    rewrite filter_all; [done|]. intros x Hx ->. done.
  - rewrite filter_cons_True by done. f_equal. by apply IH.
Qed.

Lemma contains_true d k : PyDict.contains d k = true ↔ is_Some (PyDict.get d k).
Proof.
  unfold PyDict.contains.
  destruct (PyDict.get d k); split; first [done | by eexists | by intros [? ?]].
Qed.

Lemma contains_false d k : PyDict.contains d k = false ↔ PyDict.get d k = None.
Proof. unfold PyDict.contains. by destruct (PyDict.get d k). Qed.
End dict_more.

(** ** Removing rows *)

(** X1. [remove_row] makes the id absent and leaves every other row, the
    order of the rows, the columns and the counter as they were; for an id
    the table does not hold, the table is unchanged. *)
Theorem Table_remove_row_effect (self : Table.t) (id : nat) :
  PyDict.wf (Table._rows self) →
  PyDict.get (Table._rows (Table_remove_row self id)) id = None ∧
  (∀ id', id' ≠ id →
     PyDict.get (Table._rows (Table_remove_row self id)) id' =
       PyDict.get (Table._rows self) id') ∧
  PyDict.keys (Table._rows (Table_remove_row self id)) =
    filter (λ id', id' ≠ id) (PyDict.keys (Table._rows self)) ∧
  Table._next_id (Table_remove_row self id) = Table._next_id self ∧
  Table.columns (Table_remove_row self id) = Table.columns self ∧
  (PyDict.get (Table._rows self) id = None → Table_remove_row self id = self).
Proof.
  intros Hwf. unfold Table_remove_row.
  destruct (PyDict.contains (Table._rows self) id) eqn:Hin; simpl.
  - apply contains_true in Hin as [row Hrow]. split_and!; try done.
    + by apply get_del_eq.
    + intros id' Hne. by apply get_del_ne.
    + by apply keys_del.
    + congruence.
  - apply contains_false in Hin. split_and!; try done.
    rewrite filter_all; [done|].
    intros id' Hid' ->. by apply get_None_keys in Hin.
Qed.

Lemma Table_remove_row_effect_witness :
  PyDict.get (Table._rows (Table_remove_row left_table 1)) 1%nat = None ∧
  PyDict.keys (Table._rows (Table_remove_row left_table 1)) = [0; 2]%nat ∧
  Table_remove_row left_table 7 = left_table.
Proof.
  assert (PyDict.wf (Table._rows left_table)) as Hwf.
  { by apply (bool_decide_unpack _). }
  split_and!.
  - apply (Table_remove_row_effect left_table 1 Hwf).
  - by rewrite (proj1 (proj2 (proj2 (Table_remove_row_effect left_table 1 Hwf)))).
  - by apply (Table_remove_row_effect left_table 7 Hwf).
Defined.

Lemma Table_add_row_Ok_inv self cells row :
  (Table_add_row self cells).1 = Ok row →
  length cells = length (Table.columns self) ∧
  check_cells (Table.columns self) cells
    (seq 0 (length (Table.columns self))) = Ok () ∧
  row = Row.mk (Table._next_id self) cells ∧
  (Table_add_row self cells).2 =
    Table.mk (Table.id self) (Table.name self) (Table.columns self)
      (PyDict.set (Table._rows self) (Table._next_id self)
         (Row.mk (Table._next_id self) cells))
      (Table._next_id self + 1)%nat.
Proof.
  unfold Table_add_row.
  destruct (length cells =? length (Table.columns self))%nat eqn:Hlen; simpl;
    [|done].
  apply Nat.eqb_eq in Hlen.
  destruct (check_cells _ _ _) as [[]|]; simpl; [|done].
  by intros [= <-].
Qed.

(** X2. A row added to a table and then removed leaves the rows as they
    were before, but the counter stays advanced: the id is spent. *)
Theorem add_row_then_remove_row (self : Table.t) (cells : list Value)
    (row : Row.t) :
  Table_reachable self →
  (Table_add_row self cells).1 = Ok row →
  Table_remove_row (Table_add_row self cells).2 (Row.id row) =
    Table.mk (Table.id self) (Table.name self) (Table.columns self)
      (Table._rows self) (Table._next_id self + 1)%nat.
Proof.
  intros (_ & Hbelow & _)%Table_reachable_inv
         (_ & _ & -> & ->)%Table_add_row_Ok_inv.
  assert (PyDict.get (Table._rows self) (Table._next_id self) = None) as Hfresh.
  { apply get_None_keys. intros Hin%Hbelow. lia. }
  unfold Table_remove_row, PyDict.contains; simpl.
  by rewrite get_set_eq, del_set_fresh.
Qed.

Lemma add_row_then_remove_row_witness :
  Table_remove_row (Table_add_row left_table [VInt 5; VStr "e"]).2 3 =
    Table.mk 0 "left" [number; label] (Table._rows left_table) 4.
Proof.
  apply (add_row_then_remove_row left_table [VInt 5; VStr "e"]
           (Row.mk 3 [VInt 5; VStr "e"])); [|done].
  unfold left_table, left_empty, run_row_ops. table_reachable.
Defined.

(** ** Stored cells *)

Lemma check_cells_Ok_inv columns cells start len :
  check_cells columns cells (seq start len) = Ok () →
  ∀ i column cell, (start ≤ i < start + len)%nat →
    columns !! i = Some column → cells !! i = Some cell →
    Column_check_value column cell = Ok ().
Proof.
  revert start. induction len as [|len IH]; intros start Hok i column cell Hi;
    [lia|].
  simpl in Hok.
  destruct (columns !! start) as [column'|] eqn:Hcolumn'; [|done].
  destruct (cells !! start) as [cell'|] eqn:Hcell'; [|done].
  destruct (Column_check_value column' cell') as [[]|] eqn:Hcheck; [|done].
  simpl in Hok. destruct (decide (i = start)) as [->|Hne].
  - intros Hcolumn Hcell. by simplify_eq.
  - apply (IH (S start) Hok). lia.
Qed.

Lemma Table_reachable_cells_checked t :
  Table_reachable t → Table_cells_checked t.
Proof.
  induction 1 as [id name columns _
                 | t cells Hreach IH
                 | t id _ IH
                 | t row_id row column_id column value Hreach IH Hget Hcolumn Hcheck];
    unfold Table_cells_checked.
  - intros k row i column cell Hin. by apply elem_of_nil in Hin.
  - destruct (Table_add_row t cells).1 as [row|e] eqn:Hresult.
    + destruct (Table_add_row_Ok_inv t cells row Hresult)
        as (Hlen & Hcells & -> & ->). simpl.
      intros k row i column cell [[= -> ->]|Hin]%elem_of_set Hcolumn Hcell.
      * apply (check_cells_Ok_inv _ _ _ _ Hcells i); [|done..].
        apply lookup_lt_Some in Hcolumn. lia.
      * by apply (IH k row i).
    + destruct (Table_add_row_cases t cells) as [[e' Heq]|[Heq _]];
        rewrite Heq in *; [apply IH | done].
  - unfold Table_remove_row. destruct (PyDict.contains _ _); [|apply IH].
    simpl. intros k row i column cell Hin%elem_of_del. by apply (IH k row i).
  - unfold Table_store_cells. rewrite Hget. simpl.
    intros k row' i column' cell [[= -> ->]|Hin]%elem_of_set Hcolumn' Hcell.
    + simpl in Hcell. destruct (decide (i = column_id)) as [->|Hne].
      * apply lookup_lt_Some in Hcell as Hlt. rewrite length_insert in Hlt.
        rewrite list_lookup_insert_eq in Hcell by done. by simplify_eq.
      * rewrite list_lookup_insert_ne in Hcell by done.
        apply (IH row_id row i); [|done..]. by apply get_Some_elem_of.
    + by apply (IH k row' i).
Qed.

(** X3. In every table the program can hold, a stored row has the id it is
    filed under, an id below the counter, one cell per column, and each of
    its cells passes the [check_value] of its column. *)
Theorem reachable_table_rows (t : Table.t) (k : nat) (row : Row.t) :
  Table_reachable t → PyDict.get (Table._rows t) k = Some row →
  Row.id row = k ∧ (k < Table._next_id t)%nat ∧
  length (Row.cells row) = length (Table.columns t) ∧
  ∀ i column, Table.columns t !! i = Some column →
    ∃ cell, Row.cells row !! i = Some cell ∧
            Column_check_value column cell = Ok ().
Proof.
  intros Hreach Hget.
  pose proof (Table_reachable_inv t Hreach) as (_ & Hbelow & Hrows).
  pose proof (Table_reachable_cells_checked t Hreach) as Hchecked.
  pose proof (get_Some_elem_of _ _ _ Hget) as Hin.
  destruct (Hrows k row Hin) as [Hid Hlen]. split_and!; [done| |done|].
  - apply Hbelow. unfold PyDict.keys.
    by apply (list_elem_of_fmap_2 fst _ (k, row)).
  - intros i column Hcolumn.
    destruct (lookup_lt_is_Some_2 (Row.cells row) i) as [cell Hcell].
    { rewrite Hlen. by apply lookup_lt_Some in Hcolumn. }
    exists cell. split; [done|]. by apply (Hchecked k row i).
Qed.

Lemma reachable_table_rows_witness :
  Row.id (Row.mk 1 [VInt 2; VStr "b"]) = 1%nat ∧
  (1 < Table._next_id left_table)%nat ∧
  length [VInt 2; VStr "b"] = length (Table.columns left_table) ∧
  ∀ i column, Table.columns left_table !! i = Some column →
    ∃ cell, [VInt 2; VStr "b"] !! i = Some cell ∧
            Column_check_value column cell = Ok ().
Proof.
  apply (reachable_table_rows left_table 1 (Row.mk 1 [VInt 2; VStr "b"]));
    [|done].
  unfold left_table, left_empty, run_row_ops. table_reachable.
Defined.

(** ** Types that accept more *)

(** X4. What an [Integer] column accepts, a [Real] column accepts; what a
    [Char] column accepts, a [String] column accepts; what a [ColorInvl]
    column accepts, a [Color] column accepts. *)
Theorem check_value_widening (narrow wide : Column.t) (value : Value) :
  (Column.type narrow = Type_.Integer ∧ Column.type wide = Type_.Real) ∨
  (Column.type narrow = Type_.Char ∧ Column.type wide = Type_.String) ∨
  (Column.type narrow = Type_.ColorInvl ∧ Column.type wide = Type_.Color) →
  Column_check_value narrow value = Ok () →
  Column_check_value wide value = Ok ().
Proof.
  unfold Column_check_value, check_value_assertion.
  intros [[-> ->]|[[-> ->]|[-> ->]]]; by destruct value.
Qed.

Lemma check_value_widening_witness :
  Column_check_value price (VInt 3) = Ok () ∧
  Column_check_value label (VStr "x") = Ok ().
Proof.
  split.
  - apply (check_value_widening number price (VInt 3)); [|done]. by left.
  - apply (check_value_widening initial label (VStr "x")); [|done].
    right. by left.
Defined.

(** ** The view of a column *)

(** X5. On a constructed column [get_type] raises nothing: it returns a
    column that the constructor accepts, with the requested name and the
    type of the original, and the view of that view is the view of the
    original. *)
Theorem get_type_view (c : Column.t) (name name' : string) :
  Column_valid c →
  ∃ view, Column_get_type c name = Ok view ∧
    Column_valid view ∧ Column.name view = name ∧
    Column.type view = Column.type c ∧
    Column_get_type view name' = Column_get_type c name'.
Proof.
  intros Hvalid. exists (signature c name).
  pose proof (Column_get_type_valid c name Hvalid) as Hview.
  split_and!; try done.
Qed.

Lemma get_type_view_witness :
  ∃ view, Column_get_type cold "frost" = Ok view ∧
    Column_valid view ∧ Column.name view = "frost" ∧
    Column.type view = Type_.ColorInvl ∧
    Column_get_type view "ice" = Column_get_type cold "ice".
Proof. apply (get_type_view cold "frost" "ice"). reflexivity. Defined.

(** ** More on the difference *)

(** The outcome of the difference by the shape of the two column lists. *)
Lemma Table_sub_valid_cases left right :
  Forall Column_valid (Table.columns left) →
  Forall Column_valid (Table.columns right) →
  (length (Table.columns left) ≠ length (Table.columns right) ∧
   Table_sub left right = Raise (ValueError IncompatibleColumnCount)) ∨
  (length (Table.columns left) = length (Table.columns right) ∧
   (∃ i l r, Table.columns left !! i = Some l ∧
             Table.columns right !! i = Some r ∧
             signature l "" ≠ signature r "") ∧
   Table_sub left right = Raise (ValueError IncompatibleColumnTypes)) ∨
  (length (Table.columns left) = length (Table.columns right) ∧
   (∀ i l r, Table.columns left !! i = Some l →
             Table.columns right !! i = Some r →
             signature l "" = signature r "") ∧
   Table_sub left right =
     Ok (TableDifference.mk left right
           ((λ p, signature p.1 (difference_name p.1 p.2)) <$>
              zip (Table.columns left) (Table.columns right))
           (difference_rows right (Table._rows left) []))).
Proof.
  intros Hleft Hright. unfold Table_sub.
  destruct (length (Table.columns left) =? length (Table.columns right))%nat
    eqn:Hlen; simpl.
  - apply Nat.eqb_eq in Hlen. right.
    rewrite (any_type_differs_valid _ _ Hleft Hright). simpl.
    destruct (existsb _ _) eqn:Hdiffers.
    + left. split; [done|]. split; [|done].
      by apply existsb_signature_differs.
    + right. split; [done|].
      rewrite (difference_columns_valid _ _ Hleft). simpl. split; [|done].
      intros i l r Hl Hr.
      destruct (Column_eq (signature l "") (signature r "")) eqn:Heq;
        [by apply Column_eq_eq|].
      assert (signature l "" ≠ signature r "") as Hne.
      { intros Hsame%Column_eq_eq. congruence. }
      assert (existsb
                (λ p, negb (Column_eq (signature p.1 "") (signature p.2 "")))
                (zip (Table.columns left) (Table.columns right)) = true)
        as Htrue; [|congruence].
      apply existsb_signature_differs. by exists i, l, r.
  - apply Nat.eqb_neq in Hlen. by left.
Qed.

(** X6. The difference of a table with itself succeeds and has no rows;
    its columns are the views of the table's columns under their own
    names. *)
Theorem Table_sub_self (t : Table.t) :
  Forall Column_valid (Table.columns t) →
  ∃ d, Table_sub t t = Ok d ∧
    TableDifference.rows d = [] ∧
    TableDifference.columns d =
      (λ c, signature c (Column.name c)) <$> Table.columns t.
Proof.
  intros Hvalid.
  destruct (Table_sub_valid_cases t t Hvalid Hvalid)
    as [[Hlen _]|[(_ & (i & l & r & Hl & Hr & Hne) & _)|(_ & _ & ->)]].
  - done.
  - rewrite Hl in Hr. by simplify_eq.
  - eexists. split; [done|]. simpl. split.
    + assert (∀ items rows, difference_rows t items rows =
                rows ++ [] ∨ ¬ items.*2 ⊆ PyDict.values (Table._rows t))
        as Hnone.
      { induction items as [|[id row] items IH]; intros rows; simpl.
        - left. by rewrite app_nil_r.
        - destruct (Table_contains_row t row) eqn:Hcontains; simpl.
          + destruct (IH rows) as [->|Hnot]; [by left|].
            right. intros Hsub. apply Hnot.
            intros x Hx. apply Hsub. by right.
          + right. intros Hsub.
            assert (Table_contains_row t row = true) as Htrue; [|congruence].
            unfold Table_contains_row. apply existsb_exists. exists row.
            split; [|apply list_eq_refl].
            apply list_elem_of_In, Hsub. left. }
      destruct (Hnone (Table._rows t) []) as [->|Hnot]; [done|].
      by destruct Hnot.
    + clear. induction (Table.columns t) as [|c cs IH]; csimpl; [done|].
      rewrite IH. f_equal. unfold difference_name.
      by rewrite bool_decide_eq_true_2.
Qed.

Lemma Table_sub_self_witness :
  ∃ d, Table_sub left_table left_table = Ok d ∧
    TableDifference.rows d = [] ∧
    TableDifference.columns d =
      [signature number "number"; signature label "label"].
Proof. apply (Table_sub_self left_table). columns_valid. Defined.

(** X7. When the difference succeeds and the right table has no rows, its
    rows are the rows of the left table; when the left table has no rows,
    it has none. *)
Theorem Table_sub_empty_operand (left right : Table.t)
    (d : TableDifference.t) :
  PyDict.wf (Table._rows left) → Table_sub left right = Ok d →
  (Table._rows right = [] → TableDifference.rows d = Table._rows left) ∧
  (Table._rows left = [] → TableDifference.rows d = []).
Proof.
  intros Hwf Hsub. rewrite (rows_of_Table_sub _ _ _ Hsub). split.
  - intros Hnone. rewrite difference_rows_filter by done. simpl.
    apply filter_all. intros [id row] _. simpl.
    unfold Table_contains_row. by rewrite Hnone.
  - by intros ->.
Qed.

Lemma Table_sub_empty_operand_witness :
  ∃ d, Table_sub left_table left_empty = Ok d ∧
    TableDifference.rows d = Table._rows left_table.
Proof.
  destruct (Table_sub left_table left_empty) as [d|] eqn:Hsub; [|done].
  exists d. split; [done|].
  apply (Table_sub_empty_operand left_table left_empty d); [|done..].
  by apply (bool_decide_unpack _).
Defined.

(** X8. Compatibility does not depend on the order of the operands: the
    difference of two tables raises an error exactly when the difference
    taken the other way round raises it. *)
Theorem Table_sub_error_symmetric (left right : Table.t) (e : Exception) :
  Forall Column_valid (Table.columns left) →
  Forall Column_valid (Table.columns right) →
  Table_sub left right = Raise e ↔ Table_sub right left = Raise e.
Proof.
  assert (∀ a b,
    Forall Column_valid (Table.columns a) →
    Forall Column_valid (Table.columns b) →
    Table_sub a b = Raise e → Table_sub b a = Raise e) as Hone.
  { intros a b Ha Hb.
    destruct (Table_sub_valid_cases a b Ha Hb)
      as [[Hlen ->]|[(Hlen & (i & l & r & Hl & Hr & Hne) & ->)|(_ & _ & ->)]];
      [| |done]; intros <-;
      destruct (Table_sub_valid_cases b a Hb Ha)
        as [[Hlen' ->]|[(Hlen' & _ & ->)|(Hlen' & Hsame & _)]];
      try done; try congruence.
    destruct Hne. symmetry. by apply (Hsame i). }
  intros Hleft Hright. split; by apply Hone.
Qed.

Lemma Table_sub_error_symmetric_witness :
  Table_sub numbers integer_prices =
    Raise (ValueError IncompatibleColumnTypes) ∧
  Table_sub integer_prices left_table =
    Raise (ValueError IncompatibleColumnCount).
Proof.
  split.
  - apply (Table_sub_error_symmetric integer_prices numbers);
      [columns_valid..|done].
  - apply (Table_sub_error_symmetric left_table integer_prices);
      [columns_valid..|done].
Defined.

(** ** Tables of a database *)

(** X9. [add_table] files the new table, without rows and with its row
    counter at 0, under the database's counter; removing it again leaves
    the tables as they were, with the counter advanced: the id is spent. *)
Theorem Database_add_then_remove_table (self : Database.t) (name : string)
    (columns : list Column.t) :
  (∀ k, k ∈ PyDict.keys (Database.tables self) →
        (k < Database._next_id self)%nat) →
  (Database_add_table self name columns).1 =
    Table.mk (Database._next_id self) name columns [] 0 ∧
  PyDict.get (Database.tables (Database_add_table self name columns).2)
    (Database._next_id self) = Some (Database_add_table self name columns).1 ∧
  (∀ id, id ≠ Database._next_id self →
     PyDict.get (Database.tables (Database_add_table self name columns).2) id =
       PyDict.get (Database.tables self) id) ∧
  Database_remove_table (Database_add_table self name columns).2
    (Database._next_id self) =
    Database.mk (Database.name self) (Database.tables self)
      (Database._next_id self + 1)%nat.
Proof.
  intros Hbelow.
  assert (PyDict.get (Database.tables self) (Database._next_id self) = None)
    as Hfresh.
  { apply get_None_keys. intros Hin%Hbelow. lia. }
  unfold Database_add_table, Database_remove_table, PyDict.contains; simpl.
  split_and!; [done| | |].
  - apply get_set_eq.
  - intros id Hid. by apply get_set_ne.
  - by rewrite get_set_eq, del_set_fresh.
Qed.

Lemma Database_add_then_remove_table_witness :
  Database_remove_table
    (Database_add_table (Database_init "shop") "stock" [number]).2 0 =
    Database.mk "shop" [] 1.
Proof.
  apply (Database_add_then_remove_table (Database_init "shop") "stock"
           [number]).
  intros k Hk. by apply elem_of_nil in Hk.
Defined.

(** X10. [remove_table] makes the id absent and leaves every other table,
    the order of the tables and the counter as they were; for an id the
    database does not hold, the database is unchanged. *)
Theorem Database_remove_table_effect (self : Database.t) (id : nat) :
  PyDict.wf (Database.tables self) →
  PyDict.get (Database.tables (Database_remove_table self id)) id = None ∧
  (∀ id', id' ≠ id →
     PyDict.get (Database.tables (Database_remove_table self id)) id' =
       PyDict.get (Database.tables self) id') ∧
  PyDict.keys (Database.tables (Database_remove_table self id)) =
    filter (λ id', id' ≠ id) (PyDict.keys (Database.tables self)) ∧
  Database._next_id (Database_remove_table self id) =
    Database._next_id self ∧
  (PyDict.get (Database.tables self) id = None →
     Database_remove_table self id = self).
Proof.
  intros Hwf. unfold Database_remove_table.
  destruct (PyDict.contains (Database.tables self) id) eqn:Hin; simpl.
  - apply contains_true in Hin as [table Htable]. split_and!; try done.
    + by apply get_del_eq.
    + intros id' Hne. by apply get_del_ne.
    + by apply keys_del.
    + congruence.
  - apply contains_false in Hin. split_and!; try done.
    rewrite filter_all; [done|].
    intros id' Hid' ->. by apply get_None_keys in Hin.
Qed.

Lemma Database_remove_table_effect_witness :
  PyDict.get
    (Database.tables
       (Database_remove_table
          (Database.mk "shop" [(0%nat, left_table); (1%nat, right_table)] 2) 0))
    0%nat = None ∧
  PyDict.get
    (Database.tables
       (Database_remove_table
          (Database.mk "shop" [(0%nat, left_table); (1%nat, right_table)] 2) 0))
    1%nat = Some right_table.
Proof.
  assert (PyDict.wf
            (Database.tables
               (Database.mk "shop"
                  [(0%nat, left_table); (1%nat, right_table)] 2))) as Hwf.
  { by apply (bool_decide_unpack _). }
  split.
  - apply (Database_remove_table_effect _ 0 Hwf).
  - by rewrite (proj1 (proj2 (Database_remove_table_effect _ 0 Hwf)) 1%nat).
Defined.

(** ** The registry *)

Lemma elem_of_keys {K V} `{EqDecision K} (d : list (K * V)) k :
  k ∈ PyDict.keys d ↔ is_Some (PyDict.get d k).
Proof.
  destruct (PyDict.get d k) as [v|] eqn:Hget.
  - split; [by eexists|]. intros _. unfold PyDict.keys.
    apply (list_elem_of_fmap_2 fst _ (k, v)). by apply get_Some_elem_of.
  - split; [|by intros [? ?]]. intros Hin. by apply get_None_keys in Hget.
Qed.

Lemma Table_add_row_id self cells :
  Table.id (Table_add_row self cells).2 = Table.id self.
Proof. by destruct (Table_add_row_cases self cells) as [[e ->]|[-> _]]. Qed.

Lemma Table_remove_row_id self id :
  Table.id (Table_remove_row self id) = Table.id self.
Proof. unfold Table_remove_row. by destruct (PyDict.contains _ _). Qed.

Lemma Table_store_cells_id self row_id cells :
  Table.id (Table_store_cells self row_id cells) = Table.id self.
Proof. unfold Table_store_cells. by destruct (PyDict.get _ _). Qed.

Lemma Registry_inv_set databases name database :
  Registry_inv databases → Database.name database = name →
  Database_inv database → Registry_inv (PyDict.set databases name database).
Proof.
  intros [Hwf Hdbs] Hname Hdb. split; [by apply wf_set|].
  intros name' database' [[= -> ->]|Hin]%elem_of_set; [done|]. by apply Hdbs.
Qed.

Lemma Registry_inv_del databases name :
  Registry_inv databases → Registry_inv (PyDict.del databases name).
Proof.
  intros [Hwf Hdbs]. split; [by apply wf_del|].
  intros name' database' Hin%elem_of_del. by apply Hdbs.
Qed.

Lemma Registry_inv_get databases name database :
  Registry_inv databases → PyDict.get databases name = Some database →
  Database.name database = name ∧ Database_inv database.
Proof. intros [_ Hdbs] Hget%get_Some_elem_of. by apply Hdbs. Qed.

Lemma Database_inv_get database table_id table :
  Database_inv database →
  PyDict.get (Database.tables database) table_id = Some table →
  Table.id table = table_id ∧ Table_reachable table.
Proof. intros (_ & _ & Htables) Hget%get_Some_elem_of. by apply Htables. Qed.

Lemma Database_inv_init name : Database_inv (Database_init name).
Proof.
  unfold Database_inv, PyDict.wf, PyDict.keys; simpl. split_and!.
  - apply NoDup_nil_2.
  - intros k Hk. by apply elem_of_nil in Hk.
  - intros k table Hin. by apply elem_of_nil in Hin.
Qed.

Lemma Database_inv_add_table database name columns :
  Database_inv database → Forall Column_valid columns →
  Database_inv (Database_add_table database name columns).2.
Proof.
  intros (Hwf & Hbelow & Htables) Hvalid.
  unfold Database_inv, Database_add_table; simpl. split_and!.
  - by apply wf_set.
  - intros k. rewrite keys_set. destruct (PyDict.contains _ _).
    + intros Hk%Hbelow. lia.
    + intros [Hk%Hbelow| ->%list_elem_of_singleton]%elem_of_app; lia.
  - intros k table [[= -> ->]|Hin]%elem_of_set; [|by apply Htables].
    split; [done|]. by apply reach_init.
Qed.

Lemma Database_inv_remove_table database id :
  Database_inv database → Database_inv (Database_remove_table database id).
Proof.
  intros (Hwf & Hbelow & Htables). unfold Database_remove_table.
  destruct (PyDict.contains _ _); [|done].
  unfold Database_inv; simpl. split_and!.
  - by apply wf_del.
  - intros k Hk. by apply Hbelow, (keys_del_subseteq _ id).
  - intros k table Hin%elem_of_del. by apply Htables.
Qed.

Lemma Database_inv_store_table database table_id table table' :
  Database_inv database →
  PyDict.get (Database.tables database) table_id = Some table →
  Table.id table' = table_id → Table_reachable table' →
  Database_inv (Database_store_table database table_id table').
Proof.
  intros (Hwf & Hbelow & Htables) Hget Hid Hreach.
  unfold Database_inv, Database_store_table; simpl. split_and!.
  - by apply wf_set.
  - intros k. rewrite keys_set. unfold PyDict.contains. rewrite Hget.
    apply Hbelow.
  - intros k t [[= -> ->]|Hin]%elem_of_set; [done|]. by apply Htables.
Qed.

Lemma Registry_inv_store_table databases database_name table_id table table' :
  Registry_inv databases →
  get_table databases database_name table_id = Ok table →
  Table.id table' = Table.id table → Table_reachable table' →
  Registry_inv (store_table databases database_name table_id table').
Proof.
  intros Hinv (database & Hdb & Htable)%get_table_Ok Hid Hreach.
  unfold store_table. rewrite Hdb.
  destruct (Registry_inv_get _ _ _ Hinv Hdb) as [Hname Hdbinv].
  destruct (Database_inv_get _ _ _ Hdbinv Htable) as [Htid _].
  apply Registry_inv_set; [done..|].
  apply (Database_inv_store_table _ _ table); [done..|congruence|done].
Qed.

(** The cell assignment, seen as a change of the table object. *)
Lemma store_cells_store_table databases database_name table_id row_id cells
    table :
  get_table databases database_name table_id = Ok table →
  store_cells databases database_name table_id row_id cells =
    store_table databases database_name table_id
      (Table_store_cells table row_id cells).
Proof.
  intros (database & Hdb & Htable)%get_table_Ok.
  unfold store_cells, store_table, Database_store_cells, Database_store_table.
  by rewrite Hdb, Htable.
Qed.

(** A table put back as it was leaves the registry as it was. *)
Lemma store_table_same databases database_name table_id table :
  get_table databases database_name table_id = Ok table →
  store_table databases database_name table_id table = databases.
Proof.
  intros (database & Hdb & Htable)%get_table_Ok.
  unfold store_table, Database_store_table. rewrite Hdb.
  rewrite (set_same _ _ _ Htable). apply set_same. by destruct database.
Qed.

Lemma Registry_inv_serve databases request :
  Registry_inv databases → Request_columns_valid request →
  Registry_inv (serve databases request).
Proof.
  intros Hinv Hvalid.
  destruct request as [name|name|database_name name columns
                      |database_name table_id|database_name table_id cells
                      |database_name table_id row_id
                      |database_name table_id row_id column_id value];
    simpl.
  - unfold create_database. destruct (PyDict.contains _ _); [done|]. simpl.
    apply Registry_inv_set; [done..|apply Database_inv_init].
  - unfold delete_database. destruct (get_database _ _); [|done]. simpl.
    by apply Registry_inv_del.
  - unfold create_table.
    destruct (get_database _ _) as [database|] eqn:Hdb; [|done]. simpl.
    apply get_database_Ok in Hdb.
    destruct (Registry_inv_get _ _ _ Hinv Hdb) as [Hname Hdbinv].
    apply Registry_inv_set; [done..|]. by apply Database_inv_add_table.
  - unfold delete_table. destruct (get_table _ _ _); [|done].
    destruct (get_database _ _) as [database|] eqn:Hdb; [|done]. simpl.
    apply get_database_Ok in Hdb.
    destruct (Registry_inv_get _ _ _ Hinv Hdb) as [Hname Hdbinv].
    apply Registry_inv_set; [done| |by apply Database_inv_remove_table].
    unfold Database_remove_table. by destruct (PyDict.contains _ _).
  - unfold create_row.
    destruct (get_table _ _ _) as [table|] eqn:Htable; [|done]. simpl.
    apply (Registry_inv_store_table _ _ _ table); [done..| |].
    + apply Table_add_row_id.
    + apply get_table_Ok in Htable as (database & Hdb & Htable).
      destruct (Registry_inv_get _ _ _ Hinv Hdb) as [_ Hdbinv].
      destruct (Database_inv_get _ _ _ Hdbinv Htable) as [_ Hreach].
      by apply reach_add_row.
  - unfold delete_row. destruct (get_row _ _ _ _); [|done].
    destruct (get_table _ _ _) as [table|] eqn:Htable; [|done]. simpl.
    apply (Registry_inv_store_table _ _ _ table); [done..| |].
    + apply Table_remove_row_id.
    + apply get_table_Ok in Htable as (database & Hdb & Htable).
      destruct (Registry_inv_get _ _ _ Hinv Hdb) as [_ Hdbinv].
      destruct (Database_inv_get _ _ _ Hdbinv Htable) as [_ Hreach].
      by apply reach_remove_row.
  - unfold update_cell_value.
    destruct (get_table _ _ _) as [table|] eqn:Htable; [|done].
    destruct (get_row _ _ _ _) as [row|] eqn:Hrow; [|done].
    destruct (length (Table.columns table) <=? column_id)%nat; [done|].
    destruct (Table.columns table !! column_id) as [column|] eqn:Hcolumn;
      [|done].
    destruct (Column_check_value column value) as [[]|[]] eqn:Hcheck;
      try done.
    destruct (column_id <? length (Row.cells row))%nat; [|done]. simpl.
    rewrite (store_cells_store_table _ _ _ _ _ table Htable).
    apply (Registry_inv_store_table _ _ _ table); [done..| |].
    + apply Table_store_cells_id.
    + apply get_row_Ok in Hrow as (table' & Htable' & Hrow).
      rewrite Htable in Htable'. injection Htable' as <-.
      apply get_table_Ok in Htable as (database & Hdb & Htable).
      destruct (Registry_inv_get _ _ _ Hinv Hdb) as [_ Hdbinv].
      destruct (Database_inv_get _ _ _ Hdbinv Htable) as [_ Hreach].
      by apply (reach_update table row_id row column_id column value).
Qed.

Lemma Registry_reachable_inv databases :
  Registry_reachable databases → Registry_inv databases.
Proof.
  induction 1 as [|databases request _ IH Hvalid].
  - split; [apply NoDup_nil_2|]. intros name database Hin.
    by apply elem_of_nil in Hin.
  - by apply Registry_inv_serve.
Qed.

Lemma Registry_reachable_foldl requests : ∀ databases,
  Registry_reachable databases →
  Forall Request_columns_valid requests →
  Registry_reachable (foldl serve databases requests).
Proof.
  induction requests as [|request requests IH]; intros databases Hreach Hvalid;
    simpl; [done|].
  apply Forall_cons in Hvalid as [Hrequest Hrequests].
  apply IH; [|done]. by apply registry_serve.
Qed.

Lemma served_reachable : Registry_reachable served.
Proof.
  apply Registry_reachable_foldl; [apply registry_empty|].
  repeat first [ apply Forall_nil_2 | apply Forall_cons_2 ];
    first [ exact I | reflexivity ].
Qed.

(** ** Lookups after a change *)

Lemma get_database_set databases name database other :
  get_database (PyDict.set databases name database) other =
    if decide (name = other) then Ok database
    else get_database databases other.
Proof.
  unfold get_database. destruct (decide (name = other)) as [->|Hne].
  - by rewrite get_set_eq.
  - by rewrite get_set_ne.
Qed.

Lemma get_table_set databases name database other table_id :
  name ≠ other →
  get_table (PyDict.set databases name database) other table_id =
    get_table databases other table_id.
Proof.
  intros Hne. unfold get_table. rewrite get_database_set.
  by rewrite decide_False.
Qed.

Lemma get_table_store_table databases database_name table_id table table' :
  get_table databases database_name table_id = Ok table →
  get_table (store_table databases database_name table_id table')
    database_name table_id = Ok table'.
Proof.
  intros (database & Hdb & Htable)%get_table_Ok.
  unfold store_table, get_table. rewrite Hdb, get_database_set.
  rewrite decide_True by done. simpl. by rewrite get_set_eq.
Qed.

Lemma get_table_store_table_ne databases database_name table_id table'
    other other_id :
  (other, other_id) ≠ (database_name, table_id) →
  get_table (store_table databases database_name table_id table')
    other other_id = get_table databases other other_id.
Proof.
  intros Hne. unfold store_table.
  destruct (PyDict.get databases database_name) as [database|] eqn:Hdb;
    [|done].
  destruct (decide (database_name = other)) as [<-|Hname].
  - unfold get_table. rewrite get_database_set, decide_True by done.
    unfold get_database. rewrite Hdb. simpl.
    rewrite get_set_ne; [done|]. congruence.
  - by apply get_table_set.
Qed.

(** ** Databases of the registry *)

(** X11. [create_database] answers 409 for a name the registry holds and
    leaves the registry alone; for a new name it stores a database without
    tables under that name, last in the listing, and the other databases
    are as before. *)
Theorem create_database_effect (databases : Databases) (name : string) :
  (∀ database, get_database databases name = Ok database →
     create_database databases name =
       (inl (DatabaseExists 409 name), databases)) ∧
  (get_database databases name =
     Raise (HTTPException 404 (DatabaseNotFound name)) →
   ∃ databases',
     create_database databases name =
       (inr (Database.mk name [] 0), databases') ∧
     get_database databases' name = Ok (Database.mk name [] 0) ∧
     get_databases databases' = get_databases databases ++ [name] ∧
     ∀ other, other ≠ name →
       get_database databases' other = get_database databases other).
Proof.
  unfold create_database, get_database, PyDict.contains, get_databases.
  destruct (PyDict.get databases name) as [database|] eqn:Hget.
  - split; [done|]. discriminate.
  - split; [discriminate|]. intros _. eexists. split; [done|].
    split_and!.
    + by rewrite get_set_eq.
    + rewrite keys_set. unfold PyDict.contains. by rewrite Hget.
    + intros other Hne. by rewrite get_set_ne.
Qed.

Lemma create_database_effect_witness :
  create_database served "shop" = (inl (DatabaseExists 409 "shop"), served) ∧
  ∃ databases',
    create_database served "bank" = (inr (Database.mk "bank" [] 0), databases') ∧
    get_databases databases' = ["shop"; "bank"].
Proof.
  split.
  - by eapply (proj1 (create_database_effect served "shop")).
  - destruct (proj2 (create_database_effect served "bank") eq_refl)
      as (databases' & Hcreate & _ & Hnames & _).
    by exists databases'.
Defined.

(** X12. [delete_database] answers 404 for a name the registry does not
    hold and leaves the registry alone; otherwise the name is gone from
    the lookup and from the listing, and the other databases are as
    before. *)
Theorem delete_database_effect (databases : Databases) (name : string) :
  Registry_reachable databases →
  (PyDict.get databases name = None →
     delete_database databases name =
       (Raise (HTTPException 404 (DatabaseNotFound name)), databases)) ∧
  (is_Some (PyDict.get databases name) →
   ∃ databases',
     delete_database databases name = (Ok (), databases') ∧
     get_database databases' name =
       Raise (HTTPException 404 (DatabaseNotFound name)) ∧
     get_databases databases' =
       filter (λ other, other ≠ name) (get_databases databases) ∧
     ∀ other, other ≠ name →
       get_database databases' other = get_database databases other).
Proof.
  intros [Hwf _]%Registry_reachable_inv.
  unfold delete_database, get_database, get_databases. split.
  - by intros ->.
  - intros [database ->]. eexists. split; [done|]. split_and!.
    + by rewrite get_del_eq.
    + by apply keys_del.
    + intros other Hne. by rewrite get_del_ne.
Qed.

Lemma delete_database_effect_witness :
  delete_database served "bank" =
    (Raise (HTTPException 404 (DatabaseNotFound "bank")), served) ∧
  ∃ databases',
    delete_database served "shop" = (Ok (), databases') ∧
    get_databases databases' = [].
Proof.
  split.
  - by apply (delete_database_effect served "bank" served_reachable).
  - destruct (proj2 (delete_database_effect served "shop" served_reachable))
      as (databases' & Hdelete & _ & Hnames & _); [by eexists|].
    by exists databases'.
Defined.

(** ** Tables and rows through the handlers *)

Lemma get_row_store_table databases database_name table_id table table'
    row_id :
  get_table databases database_name table_id = Ok table →
  get_row (store_table databases database_name table_id table')
    database_name table_id row_id =
    match PyDict.get (Table._rows table') row_id with
    | Some row => Ok row
    | None =>
        Raise (HTTPException 404 (RowNotFound database_name table_id row_id))
    end.
Proof.
  intros Htable. unfold get_row.
  by rewrite (get_table_store_table _ _ _ table table' Htable).
Qed.

Lemma get_row_get_table databases database_name table_id table row_id :
  get_table databases database_name table_id = Ok table →
  get_row databases database_name table_id row_id =
    match PyDict.get (Table._rows table) row_id with
    | Some row => Ok row
    | None =>
        Raise (HTTPException 404 (RowNotFound database_name table_id row_id))
    end.
Proof. intros Htable. unfold get_row. by rewrite Htable. Qed.

(** X13. [create_table] answers 404 for a missing database and leaves the
    registry alone; otherwise the new table has the database's counter as
    id, is found under that id with no rows, and the other tables of the
    database and the other databases are as before. *)
Theorem create_table_effect (databases : Databases)
    (database_name name : string) (columns : list Column.t) :
  (PyDict.get databases database_name = None →
     create_table databases database_name name columns =
       (Raise (HTTPException 404 (DatabaseNotFound database_name)),
        databases)) ∧
  (∀ database, PyDict.get databases database_name = Some database →
   ∃ databases',
     create_table databases database_name name columns =
       (Ok (Table.mk (Database._next_id database) name columns [] 0),
        databases') ∧
     get_table databases' database_name (Database._next_id database) =
       Ok (Table.mk (Database._next_id database) name columns [] 0) ∧
     get_table_rows databases' database_name (Database._next_id database) =
       Ok [] ∧
     (∀ table_id, table_id ≠ Database._next_id database →
        get_table databases' database_name table_id =
          get_table databases database_name table_id) ∧
     (∀ other table_id, other ≠ database_name →
        get_table databases' other table_id =
          get_table databases other table_id)).
Proof.
  unfold create_table, get_database. split; [by intros ->|].
  intros database Hdb. rewrite Hdb. eexists. split; [done|].
  unfold get_table_rows, get_table. simpl.
  rewrite !get_database_set, decide_True by done. simpl.
  rewrite get_set_eq. split_and!; try done.
  - intros table_id Hne. rewrite get_set_ne by done.
    unfold get_database. by rewrite Hdb.
  - intros other table_id Hne. rewrite get_database_set.
    by rewrite decide_False.
Qed.

Lemma create_table_effect_witness :
  ∃ databases',
    create_table served "shop" "orders" [number] =
      (Ok (Table.mk 2 "orders" [number] [] 0), databases') ∧
    get_table_rows databases' "shop" 2 = Ok [].
Proof.
  destruct (proj2 (create_table_effect served "shop" "orders" [number])
              _ eq_refl) as (databases' & Hcreate & _ & Hrows & _).
  by exists databases'.
Defined.

(** X14. [create_row] passes on the 404 of a missing database or table; a
    [ValueError] of [add_row] is answered with 400 carrying its message and
    the registry is as before; on success the returned row has the table's
    counter as id and is found under it, and the other rows of the table
    are as before. *)
Theorem create_row_effect (databases : Databases) (database_name : string)
    (table_id : nat) (cells : list Value) :
  (∀ e, get_table databases database_name table_id = Raise e →
     create_row databases database_name table_id cells = (Raise e, databases)) ∧
  (∀ table err,
     get_table databases database_name table_id = Ok table →
     (Table_add_row table cells).1 = Raise (ValueError err) →
     create_row databases database_name table_id cells =
       (Raise (HTTPException 400 (ErrorText err)), databases)) ∧
  (∀ table row,
     get_table databases database_name table_id = Ok table →
     (Table_add_row table cells).1 = Ok row →
     ∃ databases',
       create_row databases database_name table_id cells =
         (Ok row, databases') ∧
       row = Row.mk (Table._next_id table) cells ∧
       get_row databases' database_name table_id (Table._next_id table) =
         Ok row ∧
       ∀ row_id, row_id ≠ Table._next_id table →
         get_row databases' database_name table_id row_id =
           get_row databases database_name table_id row_id).
Proof.
  unfold create_row. split_and!.
  - by intros e ->.
  - intros table err Htable Hraise. rewrite Htable, Hraise.
    destruct (Table_add_row_cases table cells) as [[e Heq]|[Heq _]];
      rewrite Heq in *; [|done]. simpl.
    by rewrite (store_table_same _ _ _ _ Htable).
  - intros table row Htable Hok. rewrite Htable, Hok.
    destruct (Table_add_row_Ok_inv table cells row Hok) as (_ & _ & -> & ->).
    eexists. split; [done|]. split; [done|].
    split.
    + rewrite (get_row_store_table _ _ _ table) by done.
      cbn [Table._rows]. by rewrite get_set_eq.
    + intros row_id Hne. rewrite (get_row_store_table _ _ _ table) by done.
      cbn [Table._rows]. rewrite get_set_ne by done.
      by rewrite (get_row_get_table _ _ _ table).
Qed.

Lemma create_row_effect_witness :
  create_row served "shop" 0 [VInt 3] =
    (Raise (HTTPException 400 (ErrorText RowLengthMismatch)), served) ∧
  ∃ databases',
    create_row served "shop" 1 [VInt 3] = (Ok (Row.mk 0 [VInt 3]), databases') ∧
    get_row databases' "shop" 1 0 = Ok (Row.mk 0 [VInt 3]).
Proof.
  split.
  - by eapply (proj1 (proj2 (create_row_effect served "shop" 0 [VInt 3]))).
  - destruct (proj2 (proj2 (create_row_effect served "shop" 1 [VInt 3]))
                _ _ eq_refl eq_refl) as (databases' & Hcreate & _ & Hrow & _).
    by exists databases'.
Defined.

(** X15. [delete_row] passes on the 404 of a missing database, table or
    row and leaves the registry alone; otherwise the row is gone (looking
    it up answers 404) and the other rows of the table are as before. *)
Theorem delete_row_effect (databases : Databases) (database_name : string)
    (table_id row_id : nat) :
  Registry_reachable databases →
  (∀ e, get_row databases database_name table_id row_id = Raise e →
     delete_row databases database_name table_id row_id =
       (Raise e, databases)) ∧
  (∀ row, get_row databases database_name table_id row_id = Ok row →
   ∃ databases',
     delete_row databases database_name table_id row_id = (Ok (), databases') ∧
     get_row databases' database_name table_id row_id =
       Raise (HTTPException 404 (RowNotFound database_name table_id row_id)) ∧
     ∀ other_id, other_id ≠ row_id →
       get_row databases' database_name table_id other_id =
         get_row databases database_name table_id other_id).
Proof.
  intros Hinv%Registry_reachable_inv. unfold delete_row. split.
  - by intros e ->.
  - intros row Hrow. rewrite Hrow.
    apply get_row_Ok in Hrow as (table & Htable & Hrow). rewrite Htable.
    assert (PyDict.wf (Table._rows table)) as Hwf.
    { apply get_table_Ok in Htable as (database & Hdb & Htable').
      destruct (Registry_inv_get _ _ _ Hinv Hdb) as [_ Hdbinv].
      destruct (Database_inv_get _ _ _ Hdbinv Htable') as [_ Hreach].
      by apply Table_reachable_inv in Hreach as [? _]. }
    eexists. split; [done|].
    unfold Table_remove_row, PyDict.contains. rewrite Hrow. split.
    + rewrite (get_row_store_table _ _ _ table) by done.
      cbn [Table._rows]. by rewrite get_del_eq.
    + intros other_id Hne. rewrite (get_row_store_table _ _ _ table) by done.
      cbn [Table._rows]. rewrite get_del_ne by done.
      by rewrite (get_row_get_table _ _ _ table).
Qed.

Lemma delete_row_effect_witness :
  delete_row served "shop" 0 5 =
    (Raise (HTTPException 404 (RowNotFound "shop" 0 5)), served) ∧
  ∃ databases',
    delete_row served "shop" 0 0 = (Ok (), databases') ∧
    get_row databases' "shop" 0 0 =
      Raise (HTTPException 404 (RowNotFound "shop" 0 0)) ∧
    get_row databases' "shop" 0 1 = Ok (Row.mk 1 [VInt 2; VStr "b"]).
Proof.
  split.
  - by apply (delete_row_effect served "shop" 0 5 served_reachable).
  - destruct (proj2 (delete_row_effect served "shop" 0 0 served_reachable)
                _ eq_refl) as (databases' & Hdelete & Hgone & Hothers).
    exists databases'. split_and!; [done..|].
    by rewrite (Hothers 1%nat).
Defined.

(** X16. [delete_table] passes on the 404 of a missing database or table
    and leaves the registry alone; otherwise the table is gone (looking it
    up answers 404) and the other tables are as before. *)
Theorem delete_table_effect (databases : Databases) (database_name : string)
    (table_id : nat) :
  Registry_reachable databases →
  (∀ e, get_table databases database_name table_id = Raise e →
     delete_table databases database_name table_id = (Raise e, databases)) ∧
  (∀ table, get_table databases database_name table_id = Ok table →
   ∃ databases',
     delete_table databases database_name table_id = (Ok (), databases') ∧
     get_table databases' database_name table_id =
       Raise (HTTPException 404 (TableNotFound database_name table_id)) ∧
     ∀ other other_id, (other, other_id) ≠ (database_name, table_id) →
       get_table databases' other other_id =
         get_table databases other other_id).
Proof.
  intros Hinv%Registry_reachable_inv. unfold delete_table. split.
  - by intros e ->.
  - intros table Htable. rewrite Htable.
    apply get_table_Ok in Htable as (database & Hdb & Htable).
    unfold get_database. rewrite Hdb.
    destruct (Registry_inv_get _ _ _ Hinv Hdb) as [_ (Hwf & _)].
    eexists. split; [done|].
    unfold Database_remove_table, PyDict.contains. rewrite Htable. split.
    + unfold get_table. rewrite get_database_set, decide_True by done.
      simpl. by rewrite get_del_eq.
    + intros other other_id Hne.
      destruct (decide (database_name = other)) as [<-|Hname].
      * unfold get_table. rewrite get_database_set, decide_True by done.
        unfold get_database. rewrite Hdb. simpl.
        rewrite get_del_ne; [done|]. congruence.
      * by apply get_table_set.
Qed.

Lemma delete_table_effect_witness :
  delete_table served "shop" 9 =
    (Raise (HTTPException 404 (TableNotFound "shop" 9)), served) ∧
  ∃ databases',
    delete_table served "shop" 0 = (Ok (), databases') ∧
    get_table databases' "shop" 0 =
      Raise (HTTPException 404 (TableNotFound "shop" 0)) ∧
    get_table databases' "shop" 1 = Ok (Table.mk 1 "prices" [price] [] 0).
Proof.
  split.
  - by apply (delete_table_effect served "shop" 9 served_reachable).
  - destruct (proj2 (delete_table_effect served "shop" 0 served_reachable)
                _ eq_refl) as (databases' & Hdelete & Hgone & Hothers).
    exists databases'. split_and!; [done..|].
    by rewrite (Hothers "shop" 1%nat).
Defined.

(** ** More on the cell update *)

(** X17. [update_cell_value] looks for the database, the table, the row and
    the column in this order; the first one missing is answered with its
    own 404, whatever the value, and the registry is as before. *)
Theorem update_cell_value_not_found (databases : Databases)
    (database_name : string) (table_id row_id column_id : nat)
    (value : Value) :
  (PyDict.get databases database_name = None →
     update_cell_value databases database_name table_id row_id column_id value =
       (Raise (HTTPException 404 (DatabaseNotFound database_name)),
        databases)) ∧
  (∀ database,
     PyDict.get databases database_name = Some database →
     PyDict.get (Database.tables database) table_id = None →
     update_cell_value databases database_name table_id row_id column_id value =
       (Raise (HTTPException 404 (TableNotFound database_name table_id)),
        databases)) ∧
  (∀ table,
     get_table databases database_name table_id = Ok table →
     PyDict.get (Table._rows table) row_id = None →
     update_cell_value databases database_name table_id row_id column_id value =
       (Raise (HTTPException 404
                 (RowNotFound database_name table_id row_id)), databases)) ∧
  (∀ table row,
     get_table databases database_name table_id = Ok table →
     PyDict.get (Table._rows table) row_id = Some row →
     (length (Table.columns table) ≤ column_id)%nat →
     update_cell_value databases database_name table_id row_id column_id value =
       (Raise (HTTPException 404
                 (ColumnNotFound database_name table_id column_id)),
        databases)).
Proof.
  unfold update_cell_value. split_and!.
  - intros Hdb. unfold get_table, get_database. by rewrite Hdb.
  - intros database Hdb Htable. unfold get_table, get_database.
    rewrite Hdb. simpl. by rewrite Htable.
  - intros table Htable Hrow.
    by rewrite Htable, (get_row_get_table _ _ _ table), Hrow.
  - intros table row Htable Hrow Hcolumn.
    rewrite Htable, (get_row_get_table _ _ _ table), Hrow by done.
    apply Nat.leb_le in Hcolumn. by rewrite Hcolumn.
Qed.

Lemma update_cell_value_not_found_witness :
  update_cell_value served "bank" 0 0 0 (VInt 1) =
    (Raise (HTTPException 404 (DatabaseNotFound "bank")), served) ∧
  update_cell_value served "shop" 7 0 0 (VInt 1) =
    (Raise (HTTPException 404 (TableNotFound "shop" 7)), served) ∧
  update_cell_value served "shop" 0 7 0 (VInt 1) =
    (Raise (HTTPException 404 (RowNotFound "shop" 0 7)), served) ∧
  update_cell_value served "shop" 0 0 2 (VInt 1) =
    (Raise (HTTPException 404 (ColumnNotFound "shop" 0 2)), served).
Proof.
  split_and!.
  - by apply (update_cell_value_not_found served "bank" 0 0 0 (VInt 1)).
  - by eapply (proj1 (proj2 (update_cell_value_not_found served "shop" 7 0 0
                               (VInt 1)))).
  - by eapply (proj1 (proj2 (proj2 (update_cell_value_not_found served "shop"
                                      0 7 0 (VInt 1))))).
  - eapply (proj2 (proj2 (proj2 (update_cell_value_not_found served "shop"
                                   0 0 2 (VInt 1))))); [done..|simpl; lia].
Defined.

(** X18. [update_cell_value] touches nothing but the addressed row: every
    other row of the registry is found as before, whether the update
    succeeds or not. *)
Theorem update_cell_value_frame (databases : Databases)
    (database_name : string) (table_id row_id column_id : nat) (value : Value)
    (other : string) (other_table other_row : nat) :
  (other, other_table, other_row) ≠ (database_name, table_id, row_id) →
  get_row
    (update_cell_value databases database_name table_id row_id column_id
       value).2 other other_table other_row =
    get_row databases other other_table other_row.
Proof.
  intros Hne. unfold update_cell_value.
  destruct (get_table databases database_name table_id) as [table|] eqn:Htable;
    [|done].
  destruct (get_row databases database_name table_id row_id) as [row|] eqn:Hrow;
    [|done].
  destruct (length (Table.columns table) <=? column_id)%nat; [done|].
  destruct (Table.columns table !! column_id) as [column|]; [|done].
  destruct (Column_check_value column value) as [[]|[]]; try done.
  destruct (column_id <? length (Row.cells row))%nat; [|done]. simpl.
  rewrite (store_cells_store_table _ _ _ _ _ table Htable).
  destruct (decide ((other, other_table) = (database_name, table_id)))
    as [[= -> ->]|Htable_ne].
  - rewrite (get_row_store_table _ _ _ table) by done.
    rewrite (get_row_get_table _ _ _ table) by done.
    rewrite (get_row_get_table _ _ _ table) in Hrow by done.
    unfold Table_store_cells.
    destruct (PyDict.get (Table._rows table) row_id); [|done].
    cbn [Table._rows]. rewrite get_set_ne; [done|]. congruence.
  - unfold get_row. by rewrite get_table_store_table_ne.
Qed.

Lemma update_cell_value_frame_witness :
  get_row (update_cell_value served "shop" 0 0 1 (VStr "z")).2 "shop" 0 1 =
    Ok (Row.mk 1 [VInt 2; VStr "b"]) ∧
  get_row (update_cell_value served "shop" 0 0 1 (VStr "z")).2 "shop" 0 0 =
    Ok (Row.mk 0 [VInt 1; VStr "z"]).
Proof.
  split; [|done].
  by rewrite (update_cell_value_frame served "shop" 0 0 1 (VStr "z")
                "shop" 0 1).
Defined.

(** ** What every registry keeps *)

(** X19. In every registry the handlers can produce, a database is filed
    under its own name, a table under its own id, below its database's
    counter and over constructed columns, and a row under its own id,
    below its table's counter, with one cell per column, each cell
    passing the [check_value] of its column. *)
Theorem registry_lookups_consistent (databases : Databases) :
  Registry_reachable databases →
  (∀ database_name database,
     get_database databases database_name = Ok database →
     Database.name database = database_name) ∧
  (∀ database_name table_id table,
     get_table databases database_name table_id = Ok table →
     Table.id table = table_id ∧
     Forall Column_valid (Table.columns table) ∧
     ∃ database, get_database databases database_name = Ok database ∧
                 (table_id < Database._next_id database)%nat) ∧
  (∀ database_name table_id row_id table row,
     get_table databases database_name table_id = Ok table →
     get_row databases database_name table_id row_id = Ok row →
     Row.id row = row_id ∧ (row_id < Table._next_id table)%nat ∧
     length (Row.cells row) = length (Table.columns table) ∧
     ∀ i column, Table.columns table !! i = Some column →
       ∃ cell, Row.cells row !! i = Some cell ∧
               Column_check_value column cell = Ok ()).
Proof.
  intros Hinv%Registry_reachable_inv. split_and!.
  - intros database_name database Hdb%get_database_Ok.
    by apply (Registry_inv_get _ _ _ Hinv Hdb).
  - intros database_name table_id table
      (database & Hdb & Htable)%get_table_Ok.
    destruct (Registry_inv_get _ _ _ Hinv Hdb) as [_ Hdbinv].
    destruct (Database_inv_get _ _ _ Hdbinv Htable) as [Hid Hreach].
    split_and!; [done|by apply Table_reachable_columns|].
    exists database. split; [by apply get_database_Ok|].
    destruct Hdbinv as (_ & Hbelow & _). apply Hbelow, elem_of_keys.
    by eexists.
  - intros database_name table_id row_id table row Htable Hrow.
    rewrite (get_row_get_table _ _ _ table _ Htable) in Hrow.
    destruct (PyDict.get (Table._rows table) row_id) as [row'|] eqn:Hget;
      [|done].
    injection Hrow as ->.
    apply get_table_Ok in Htable as (database & Hdb & Htable).
    destruct (Registry_inv_get _ _ _ Hinv Hdb) as [_ Hdbinv].
    destruct (Database_inv_get _ _ _ Hdbinv Htable) as [_ Hreach].
    pose proof (Table_reachable_inv table Hreach) as (_ & Hbelow & Hrows).
    pose proof (Table_reachable_cells_checked table Hreach) as Hchecked.
    pose proof (get_Some_elem_of _ _ _ Hget) as Hin.
    destruct (Hrows row_id row Hin) as [Hid Hlen]. split_and!; [done| |done|].
    + apply Hbelow, elem_of_keys. by eexists.
    + intros i column Hcolumn.
      destruct (lookup_lt_is_Some_2 (Row.cells row) i) as [cell Hcell].
      { rewrite Hlen. by apply lookup_lt_Some in Hcolumn. }
      exists cell. split; [done|]. by apply (Hchecked row_id row i).
Qed.

Lemma registry_lookups_consistent_witness :
  Table.id (Table.mk 1 "prices" [price] [] 0) = 1%nat ∧
  Forall Column_valid (Table.columns (Table.mk 1 "prices" [price] [] 0)) ∧
  ∃ database, get_database served "shop" = Ok database ∧
              (1 < Database._next_id database)%nat.
Proof.
  by apply (proj1 (proj2 (registry_lookups_consistent served served_reachable))
              "shop" 1%nat).
Defined.

(** ** Exceptions that reach the caller *)

(** A lookup finds its entry or raises the 404 of what is missing. *)
Lemma get_table_cases databases database_name table_id :
  (∃ table, get_table databases database_name table_id = Ok table) ∨
  (∃ detail, get_table databases database_name table_id =
               Raise (HTTPException 404 detail)).
Proof.
  unfold get_table, get_database.
  destruct (PyDict.get databases _) as [database|]; simpl; [|by right; eexists].
  destruct (PyDict.get (Database.tables _) _); [left|right]; by eexists.
Qed.

Lemma get_row_cases databases database_name table_id row_id :
  (∃ row, get_row databases database_name table_id row_id = Ok row) ∨
  (∃ detail, get_row databases database_name table_id row_id =
               Raise (HTTPException 404 detail)).
Proof.
  unfold get_row.
  destruct (get_table_cases databases database_name table_id)
    as [[table ->]|[detail ->]]; simpl; [|by right; eexists].
  destruct (PyDict.get (Table._rows _) _); [left|right]; by eexists.
Qed.

(** Over constructed columns and as many cells, the validation loop passes
    or raises a [ValueError]. *)
Lemma check_cells_valid columns cells start len :
  Forall Column_valid columns →
  (start + len ≤ length columns)%nat → (start + len ≤ length cells)%nat →
  check_cells columns cells (seq start len) = Ok () ∨
  ∃ err, check_cells columns cells (seq start len) = Raise (ValueError err).
Proof.
  intros Hvalid. revert start.
  induction len as [|len IH]; intros start Hcolumns Hcells; simpl; [by left|].
  destruct (lookup_lt_is_Some_2 columns start) as [column Hcolumn]; [lia|].
  destruct (lookup_lt_is_Some_2 cells start) as [cell Hcell]; [lia|].
  rewrite Hcolumn, Hcell.
  destruct (Column_check_value_cases column cell) as [-> | ->]; simpl.
  - by apply (Forall_lookup_1 _ _ _ _ Hvalid Hcolumn).
  - apply IH; lia.
  - right. by eexists.
Qed.

(** X20. In every registry the handlers can produce, [create_row] and
    [update_cell_value] end with their row, with an [HTTPException] of
    status 404, or with an [HTTPException] of status 400 carrying the
    message of a [ValueError]: no [TypeError], [IndexError] or bare
    [ValueError] leaves them, whatever the request. *)
Theorem row_handlers_answer (databases : Databases) (database_name : string)
    (table_id row_id column_id : nat) (cells : list Value) (value : Value) :
  Registry_reachable databases →
  ((∃ row, (create_row databases database_name table_id cells).1 = Ok row) ∨
   (∃ detail, (create_row databases database_name table_id cells).1 =
                Raise (HTTPException 404 detail)) ∨
   (∃ err, (create_row databases database_name table_id cells).1 =
             Raise (HTTPException 400 (ErrorText err)))) ∧
  ((∃ row, (update_cell_value databases database_name table_id row_id
              column_id value).1 = Ok row) ∨
   (∃ detail, (update_cell_value databases database_name table_id row_id
                 column_id value).1 = Raise (HTTPException 404 detail)) ∨
   (∃ err, (update_cell_value databases database_name table_id row_id
              column_id value).1 = Raise (HTTPException 400 (ErrorText err)))).
Proof.
  intros Hinv%Registry_reachable_inv. split.
  - unfold create_row.
    destruct (get_table_cases databases database_name table_id)
      as [[table Htable]|[detail ->]]; [|right; left; by eexists].
    rewrite Htable. simpl.
    apply get_table_Ok in Htable as (database & Hdb & Htable).
    destruct (Registry_inv_get _ _ _ Hinv Hdb) as [_ Hdbinv].
    destruct (Database_inv_get _ _ _ Hdbinv Htable) as [_ Hreach].
    apply Table_reachable_columns in Hreach.
    unfold Table_add_row.
    destruct (length cells =? length (Table.columns table))%nat eqn:Hlen;
      simpl; [|right; right; by eexists].
    apply Nat.eqb_eq in Hlen.
    destruct (check_cells_valid (Table.columns table) cells 0
                (length (Table.columns table)) Hreach) as [-> | [err ->]];
      simpl; [lia..| |].
    + left. by eexists.
    + right; right. by eexists.
  - unfold update_cell_value.
    destruct (get_table_cases databases database_name table_id)
      as [[table Htable]|[detail ->]]; [|right; left; by eexists].
    rewrite Htable.
    destruct (get_row_cases databases database_name table_id row_id)
      as [[row Hrow]|[detail ->]]; [|right; left; by eexists].
    rewrite Hrow.
    destruct (length (Table.columns table) <=? column_id)%nat eqn:Hbound;
      [right; left; by eexists|].
    apply Nat.leb_gt in Hbound.
    destruct (lookup_lt_is_Some_2 (Table.columns table) column_id)
      as [column Hcolumn]; [done|].
    rewrite Hcolumn.
    rewrite (get_row_get_table _ _ _ table _ Htable) in Hrow.
    destruct (PyDict.get (Table._rows table) row_id) as [row'|] eqn:Hget;
      [|done].
    injection Hrow as ->.
    apply get_table_Ok in Htable as (database & Hdb & Htable).
    destruct (Registry_inv_get _ _ _ Hinv Hdb) as [_ Hdbinv].
    destruct (Database_inv_get _ _ _ Hdbinv Htable) as [_ Hreach].
    pose proof (Table_reachable_columns table Hreach) as Hvalid.
    pose proof (Table_reachable_inv table Hreach) as (_ & _ & Hrows).
    destruct (Hrows row_id row (get_Some_elem_of _ _ _ Hget)) as [_ Hlen].
    destruct (Column_check_value_cases column value) as [-> | ->].
    + by apply (Forall_lookup_1 _ _ _ _ Hvalid Hcolumn).
    + assert ((column_id <? length (Row.cells row))%nat = true) as ->.
      { apply Nat.ltb_lt. lia. }
      left. by eexists.
    + right; right. by eexists.
Qed.

Lemma row_handlers_answer_witness :
  ((∃ row, (create_row served "shop" 0 [VStr "x"; VInt 1]).1 = Ok row) ∨
   (∃ detail, (create_row served "shop" 0 [VStr "x"; VInt 1]).1 =
                Raise (HTTPException 404 detail)) ∨
   (∃ err, (create_row served "shop" 0 [VStr "x"; VInt 1]).1 =
             Raise (HTTPException 400 (ErrorText err)))) ∧
  ((∃ row, (update_cell_value served "shop" 0 1 1 (VInt 4)).1 = Ok row) ∨
   (∃ detail, (update_cell_value served "shop" 0 1 1 (VInt 4)).1 =
                Raise (HTTPException 404 detail)) ∨
   (∃ err, (update_cell_value served "shop" 0 1 1 (VInt 4)).1 =
             Raise (HTTPException 400 (ErrorText err)))).
Proof.
  apply (row_handlers_answer served "shop" 0 1 1 [VStr "x"; VInt 1] (VInt 4)
           served_reachable).
Defined.

(** ** The difference through its handler *)

(** X21. [get_table_difference] looks up the left table first and passes on
    the 404 of the first lookup that fails; with both tables found it
    returns the difference of those two tables, or lets the [ValueError] of
    an incompatible pair through as it is, not as an [HTTPException]; in a
    registry the handlers can produce no other exception leaves it. *)
Theorem get_table_difference_outcome (databases : Databases)
    (database_name : string) (left_table_id right_table_id : nat) :
  Registry_reachable databases →
  (∀ e, get_table databases database_name left_table_id = Raise e →
     get_table_difference databases database_name left_table_id
       right_table_id = Raise e) ∧
  (∀ left e,
     get_table databases database_name left_table_id = Ok left →
     get_table databases database_name right_table_id = Raise e →
     get_table_difference databases database_name left_table_id
       right_table_id = Raise e) ∧
  (∀ left right,
     get_table databases database_name left_table_id = Ok left →
     get_table databases database_name right_table_id = Ok right →
     get_table_difference databases database_name left_table_id
       right_table_id = Table_sub left right ∧
     ((∃ d, Table_sub left right = Ok d ∧
            TableDifference.left_table d = left ∧
            TableDifference.right_table d = right) ∨
      Table_sub left right = Raise (ValueError IncompatibleColumnCount) ∨
      Table_sub left right = Raise (ValueError IncompatibleColumnTypes))).
Proof.
  intros Hinv%Registry_reachable_inv. unfold get_table_difference.
  split_and!.
  - by intros e ->.
  - by intros left e -> ->.
  - intros left right Hleft Hright. rewrite Hleft, Hright. split; [done|].
    assert (∀ table_id table,
      get_table databases database_name table_id = Ok table →
      Forall Column_valid (Table.columns table)) as Hvalid.
    { intros table_id table (database & Hdb & Htable)%get_table_Ok.
      destruct (Registry_inv_get _ _ _ Hinv Hdb) as [_ Hdbinv].
      destruct (Database_inv_get _ _ _ Hdbinv Htable) as [_ Hreach].
      by apply Table_reachable_columns. }
    destruct (Table_sub_valid_cases left right (Hvalid _ _ Hleft)
                (Hvalid _ _ Hright))
      as [[_ ->]|[(_ & _ & ->)|(_ & _ & ->)]]; auto.
    left. by eexists.
Qed.

Lemma get_table_difference_outcome_witness :
  get_table_difference served "shop" 7 8 =
    Raise (HTTPException 404 (TableNotFound "shop" 7)) ∧
  get_table_difference served "shop" 0 1 =
    Raise (ValueError IncompatibleColumnCount).
Proof.
  split.
  - by apply (get_table_difference_outcome served "shop" 7 8 served_reachable).
  - by rewrite (proj1 (proj2 (proj2 (get_table_difference_outcome served
                  "shop" 0 1 served_reachable)) _ _ eq_refl eq_refl)).
Defined.

(** ** Finding a row *)

(** X22. [contains_row] looks at the cells only: a table with no rows
    contains no row, a row just added is contained whatever id it is asked
    under, and rows with equal cell lists are contained alike. *)
Theorem Table_contains_row_cells (self : Table.t) (cells : list Value)
    (row : Row.t) :
  (Table_add_row self cells).1 = Ok row →
  (∀ id, Table_contains_row (Table_add_row self cells).2 (Row.mk id cells) =
           true) ∧
  (∀ probe probe', Row.cells probe = Row.cells probe' →
     Table_contains_row self probe = Table_contains_row self probe') ∧
  (∀ id name columns probe,
     Table_contains_row (Table_init id name columns) probe = false).
Proof.
  intros (_ & _ & _ & ->)%Table_add_row_Ok_inv. split_and!.
  - intros id. unfold Table_contains_row, PyDict.values. simpl.
    apply existsb_exists. exists (Row.mk (Table._next_id self) cells).
    split; [|apply list_eq_refl].
    apply list_elem_of_In.
    apply (list_elem_of_fmap_2 snd _ (Table._next_id self, _)).
    apply get_Some_elem_of, get_set_eq.
  - intros probe probe' Hcells. unfold Table_contains_row. by rewrite Hcells.
  - done.
Qed.

Lemma Table_contains_row_cells_witness :
  Table_contains_row (Table_add_row left_table [VInt 5; VStr "e"]).2
    (Row.mk 42 [VInt 5; VStr "e"]) = true.
Proof.
  by apply (Table_contains_row_cells left_table [VInt 5; VStr "e"]
              (Row.mk 3 [VInt 5; VStr "e"]) eq_refl).
Defined.
